(** * VintBot: the listing model and the notification pipeline

    A shallow embedding of [src/item.py] (class [Item]) and of
    [src/bot/main.py] (class [MyBot]) together with the properties of the
    brand matcher, the enrichment client, the renderer and the polling
    orchestrator.

    Layout: part I holds the definitions (module [Py] for the fragment of
    the Python runtime the program relies on, module [Item] for
    [src/item.py], module [MyBot] for [src/bot/main.py]); part II holds the
    lemmas and theorems. *)

From Stdlib Require Import ZArith QArith Qabs Qpower Qreduction.
From Stdlib Require Import List String Ascii Bool Lia Lqa DecimalString.
Import ListNotations.

Set Implicit Arguments.
Set Warnings "-register-all".
Local Open Scope list_scope.

(* ================================================================= *)
(** * Part I: definitions *)
(* ================================================================= *)

(** ** The fragment of the Python runtime used by the program *)

Module Py.

(** A Python [str] is a sequence of Unicode code points. *)
Definition str := list N.

(** [u "abc"] is the [str] of an ASCII literal. *)
Definition u (s : string) : str := map N_of_ascii (list_ascii_of_string s).

Definition str_eqb (a b : str) : bool :=
  if list_eq_dec N.eq_dec a b then true else false.

(** [s.startswith(p)]. *)
Fixpoint starts_with (p s : str) : bool :=
  match p, s with
  | [], _ => true
  | _ :: _, [] => false
  | a :: p', b :: s' => N.eqb a b && starts_with p' s'
  end.

(** [sub in s] for two strings. *)
Fixpoint contains (sub s : str) : bool :=
  starts_with sub s ||
  match s with
  | [] => false
  | _ :: s' => contains sub s'
  end.

(** [s.replace(old, new)] for a non-empty [old]: occurrences are taken
    from left to right and do not overlap.  [skip] counts the code points
    of an occurrence that are still to be passed over. *)
Fixpoint replace_from (old new s : str) (skip : nat) : str :=
  match s with
  | [] => []
  | c :: s' =>
      match skip with
      | S k => replace_from old new s' k
      | O =>
          if starts_with old s
          then new ++ replace_from old new s' (List.length old - 1)
          else c :: replace_from old new s' 0
      end
  end.

Definition replace (old new s : str) : str := replace_from old new s 0.

(** [s.split(sep)] for a non-empty [sep]; [cur] is the part being read,
    in reverse. *)
Fixpoint split_from (sep s : str) (skip : nat) (cur : str) : list str :=
  match s with
  | [] => [rev cur]
  | c :: s' =>
      match skip with
      | S k => split_from sep s' k cur
      | O =>
          if starts_with sep s
          then rev cur :: split_from sep s' (List.length sep - 1) []
          else split_from sep s' 0 (c :: cur)
      end
  end.

Definition split (sep s : str) : list str := split_from sep s 0 [].

(** [c.isspace()]: the code points [str.strip()] removes. *)
Definition isspace (c : N) : bool :=
  ((9 <=? c) && (c <=? 13) || (28 <=? c) && (c <=? 32)
   || (c =? 133) || (c =? 160) || (c =? 5760)
   || (8192 <=? c) && (c <=? 8202)
   || (c =? 8232) || (c =? 8233) || (c =? 8239) || (c =? 8287)
   || (c =? 12288))%N.

Fixpoint lstrip (s : str) : str :=
  match s with
  | [] => []
  | c :: s' => if isspace c then lstrip s' else s
  end.

(** [s.strip()]. *)
Definition strip (s : str) : str := rev (lstrip (rev (lstrip s))).


(** [str(n)] for an [int]. *)
Definition str_of_int (n : Z) : str := u (NilZero.string_of_int (Z.to_int n)).

(** A finite [float] is the rational it stands for; the arithmetic of
    the program on floats is the exact one followed by [fl], the rounding
    to the nearest binary64 number.

    [round(x)]: the nearest integer, a tie going to the even one. *)
Definition py_round (x : Q) : Z :=
  let n := Qnum x in
  let d := Zpos (Qden x) in
  let f := (n / d)%Z in
  match (2 * (n mod d) ?= d)%Z with
  | Lt => f
  | Gt => (f + 1)%Z
  | Eq => if Z.even f then f else (f + 1)%Z
  end.

(** The exponent [k] with [2 ^ k <= x < 2 ^ (k + 1)], for [x > 0]. *)
Definition binade (x : Q) : Z :=
  let k := (Z.log2 (Qnum x) - Z.log2 (Zpos (Qden x)))%Z in
  if Qle_bool (2 ^ k) x then k else (k - 1)%Z.

(** The binary64 number nearest to [x > 0]: a mantissa of 53 bits, a tie
    going to the even mantissa.  Overflow and subnormal numbers are left
    out: the exponent is unbounded. *)
Definition fl_pos (x : Q) : Q :=
  let e := (binade x - 52)%Z in
  inject_Z (py_round (x * 2 ^ (- e))) * 2 ^ e.

(** The binary64 number nearest to [x], as a fraction in lowest terms. *)
Definition fl (x : Q) : Q :=
  let y := Qred x in
  Qred match Qnum y with
       | 0%Z => 0
       | Zpos _ => fl_pos y
       | Zneg _ => - fl_pos (- y)
       end.

(** [int(x)] for a [float]: the fraction is dropped, towards zero. *)
Definition trunc (x : Q) : Z := Z.quot (Qnum x) (Zpos (Qden x)).

(** [round(x, 1)] for a [float]: the decimal with one digit nearest to
    the value of [x], a tie going to the even digit, read back as a
    [float]. *)
Definition py_round1 (x : Q) : Q := fl (inject_Z (py_round (x * 10)) / 10).

(** The parts of the runtime that are tables or library code of their
    own: Unicode lower-casing and the [datetime] constructors.  A
    [datetime] is an instant in microseconds since the epoch, UTC. *)
Definition datetime := Z.

(** Exceptions, as far as the program meets them. *)
Inductive exn : Type :=
| AttributeError
| TypeError
| ValueError
| KeyError
| OverflowError
| HTTPError (status_code : Z)  (* requests.exceptions.HTTPError *)
| RequestException   (* any other requests.exceptions.RequestException *)
| DiscordException.  (* whatever the channel sink raises *)

Inductive result (A : Type) : Type :=
| Ok (a : A)
| Raise (e : exn).
Arguments Ok {A} a.
Arguments Raise {A} e.

Definition bind {A B} (m : result A) (k : A -> result B) : result B :=
  match m with
  | Ok a => k a
  | Raise e => Raise e
  end.

(** JSON documents as [json.load] and [response.json()] deliver them.
    A [dict] keeps its keys in insertion order and holds each key once. *)
Inductive value : Type :=
| VNone
| VBool (b : bool)
| VInt (n : Z)
| VFloat (x : Q)
| VStr (s : str)
| VList (l : list value)
| VDict (d : list (str * value)).

Definition dict := list (str * value).

(** [bool(v)]. *)
Definition truthy (v : value) : bool :=
  match v with
  | VNone => false
  | VBool b => b
  | VInt n => negb (n =? 0)%Z
  | VFloat x => negb (Qnum x =? 0)%Z
  | VStr s => match s with [] => false | _ => true end
  | VList l => match l with [] => false | _ => true end
  | VDict d => match d with [] => false | _ => true end
  end.

(** [isinstance(v, (int, float))]; a [bool] is an [int]. *)
Definition is_number (v : value) : bool :=
  match v with
  | VInt _ | VBool _ | VFloat _ => true
  | _ => false
  end.

(** [v == s] for a string literal [s]. *)
Definition is_str (s : str) (v : value) : bool :=
  match v with
  | VStr t => str_eqb t s
  | _ => false
  end.

Fixpoint lookup {A} (k : str) (d : list (str * A)) : option A :=
  match d with
  | [] => None
  | (k', v) :: d' => if str_eqb k' k then Some v else lookup k d'
  end.

(** [k in d] and [d.get(k, default)] on a [dict]. *)
Definition dict_mem {A} (k : str) (d : list (str * A)) : bool :=
  match lookup k d with Some _ => true | None => false end.

(** [d[k] = v]: a key already present keeps its place. *)
Fixpoint dict_set {A} (k : str) (v : A) (d : list (str * A)) : list (str * A) :=
  match d with
  | [] => [(k, v)]
  | (k', v') :: d' =>
      if str_eqb k' k then (k', v) :: d' else (k', v') :: dict_set k v d'
  end.

Definition dict_get (d : dict) (k : str) (default : value) : value :=
  match lookup k d with Some v => v | None => default end.

(** [v.get(k, default)] on any value: only a [dict] has the method. *)
Definition get (v : value) (k : str) (default : value) : result value :=
  match v with
  | VDict d => Ok (dict_get d k default)
  | _ => Raise AttributeError
  end.

(** [k in v] for a string literal [k]: key membership on a [dict],
    substring test on a [str], element membership on a [list]. *)
Definition contains_key (k : str) (v : value) : result bool :=
  match v with
  | VDict d => Ok (dict_mem k d)
  | VStr s => Ok (contains k s)
  | VList l => Ok (existsb (is_str k) l)
  | _ => Raise TypeError
  end.

(** [v[k]] for a string literal [k]. *)
Definition subscript (v : value) (k : str) : result value :=
  match v with
  | VDict d => match lookup k d with Some x => Ok x | None => Raise KeyError end
  | _ => Raise TypeError
  end.

(** The elements a [for] loop over [v] visits. *)
Definition iterate (v : value) : result (list value) :=
  match v with
  | VList l => Ok l
  | VDict d => Ok (map (fun kv => VStr (fst kv)) d)
  | VStr s => Ok (map (fun c => VStr [c]) s)
  | _ => Raise TypeError
  end.

(** What the program takes from the standard library as it is:
    [str.lower], [datetime.fromtimestamp(., tz=utc)] on a number (a
    finite [float] is the rational it denotes), and [datetime.fromisoformat], whose only failure is
    [ValueError] (here [None]). *)
Class Runtime : Type := {
  lower : str -> str;
  fromtimestamp : Q -> result datetime;
  fromisoformat : str -> option datetime
}.

End Py.

Export Py.

Declare Scope py_scope.
Delimit Scope py_scope with py.
Notation "x <- m ;; k" := (bind m (fun x => k))
  (at level 61, m at next level, right associativity) : py_scope.
Open Scope py_scope.

(** ** [src/item.py]: the listing model *)

Module item.
Section WithRuntime.
Context {rt : Runtime}.

(** The attributes [Item.__init__] sets. *)
Record Item : Type := {
  raw_data : dict;
  id : value;
  title : value;
  price : value;
  currency : value;
  brand_title : value;
  size_title : value;
  url : value;
  photo_url : value;
  description : str;
  rapid_api_description : value;
  created_at_ts : datetime;
  status : value;
  user_feedback : dict
}.

(** The loop of lines 87-92 over the elements of [sections]; the result
    is what it appends to [description_candidates]. *)
Fixpoint scan_sections (sections : list value) : result (list value) :=
  match sections with
  | [] => Ok []
  | section :: rest =>
      name <- get section (u "name") VNone;;
      found <- (if is_str (u "description") name
                then
                  section_data <- get section (u "data") (VDict []);;
                  section_description <- get section_data (u "description") VNone;;
                  Ok (if truthy section_description
                      then [section_description] else [])
                else Ok []);;
      more <- scan_sections rest;;
      Ok (found ++ more)
  end.

(** The loop of lines 95-97: the first candidate that is truthy and
    whose [strip()] is non-empty is returned, stripped. *)
Fixpoint first_valid (description_candidates : list value) : result str :=
  match description_candidates with
  | [] => Ok (u "No description provided")
  | description :: rest =>
      if truthy description
      then match description with
           | VStr s =>
               match strip s with
               | [] => first_valid rest
               | _ :: _ => Ok (strip s)
               end
           | _ => Raise AttributeError
           end
      else first_valid rest
  end.

(** The candidates in the order lines 67-92 collect them. *)
Definition description_candidates (data : dict) : result (list value) :=
  let direct :=
    if dict_mem (u "description") data
    then [dict_get data (u "description") VNone] else [] in
  let item_box := dict_get data (u "item_box") (VDict []) in
  in_box <- contains_key (u "description") item_box;;
  boxed <- (if in_box
            then d <- subscript item_box (u "description");; Ok [d]
            else Ok []);;
  page_props <- get (dict_get data (u "props") (VDict [])) (u "pageProps") (VDict []);;
  item_dto <- get page_props (u "itemDto") (VDict []);;
  in_dto <- contains_key (u "description") item_dto;;
  dto <- (if in_dto
          then d <- subscript item_dto (u "description");; Ok [d]
          else Ok []);;
  sections <- iterate (dict_get data (u "sections") (VList []));;
  sectioned <- scan_sections sections;;
  Ok (direct ++ boxed ++ dto ++ sectioned).

Definition _extract_description (data : dict) : result str :=
  cands <- description_candidates data;;
  first_valid cands.

Definition _extract_user_feedback (data : dict) : result dict :=
  let user_data := dict_get data (u "user") (VDict []) in
  positive <- get user_data (u "positive_feedback_count") (VInt 0);;
  neutral <- get user_data (u "neutral_feedback_count") (VInt 0);;
  negative <- get user_data (u "negative_feedback_count") (VInt 0);;
  Ok [ (u "positive_feedback_count", positive);
       (u "neutral_feedback_count", neutral);
       (u "negative_feedback_count", negative) ].

(** [datetime.fromtimestamp(v, tz=timezone.utc)]: a [TypeError] unless
    [v] is a number ([bool] counts as [int]). *)
Definition from_number (v : value) : result datetime :=
  match v with
  | VInt n => fromtimestamp (inject_Z n)
  | VBool b => fromtimestamp (inject_Z (if b then 1 else 0))
  | VFloat x => fromtimestamp x
  | _ => Raise TypeError
  end.

(** [datetime.fromisoformat(s.replace('Z', '+00:00'))]. *)
Definition from_iso (s : str) : option datetime :=
  fromisoformat (replace (u "Z") (u "+00:00") s).

(** Line 133. *)
Definition photo_timestamp (data : dict) : result value :=
  high_resolution <- get (dict_get data (u "photo") (VDict []))
                         (u "high_resolution") (VDict []);;
  get high_resolution (u "timestamp") VNone.

(** Lines 149-154.  [Ok (Some d)] stands for [return d], [Ok None] for
    leaving the block without a [return]. *)
Definition last_logged_source (data : dict) : result (option datetime) :=
  let last_logged := dict_get data (u "last_loged_on_ts") VNone in
  if truthy last_logged
  then match last_logged with
       | VStr s => Ok (from_iso s)
       | _ => Raise AttributeError
       end
  else Ok None.

(** Lines 138-146. *)
Definition created_at_source (data : dict) : result (option datetime) :=
  let created_at := dict_get data (u "created_at_ts") VNone in
  if truthy created_at
  then if is_number created_at
       then d <- from_number created_at;; Ok (Some d)
       else match created_at with
            | VStr s => Ok (from_iso s)
            | _ => Ok None
            end
  else Ok None.

(** The body of the outer [try], lines 132-154. *)
Definition timestamp_sources (data : dict) : result (option datetime) :=
  timestamp <- photo_timestamp data;;
  if truthy timestamp
  then d <- from_number timestamp;; Ok (Some d)
  else
    created <- created_at_source data;;
    match created with
    | Some d => Ok (Some d)
    | None => last_logged_source data
    end.

(** How the body of the outer [try] ends, lines 156-160: a value
    returned inside it is the result; [except (ValueError, TypeError)] and
    leaving the body without a [return] both lead to line 160, where
    [now] is what [datetime.now(timezone.utc)] reads; any other exception
    goes on to the caller. *)
Definition settle (now : datetime) (r : result (option datetime))
    : result datetime :=
  match r with
  | Ok (Some d) => Ok d
  | Ok None => Ok now
  | Raise ValueError | Raise TypeError => Ok now
  | Raise e => Raise e
  end.

Definition _parse_timestamp (now : datetime) (data : dict) : result datetime :=
  settle now (timestamp_sources data).

Definition __init__ (now : datetime) (data : dict) : result Item :=
  photo_url <- get (dict_get data (u "photo") (VDict [])) (u "url")
                   (VStr (u "No photo URL"));;
  description <- _extract_description data;;
  created_at_ts <- _parse_timestamp now data;;
  user_feedback <- _extract_user_feedback data;;
  Ok {| raw_data := data;
        id := dict_get data (u "id") (VStr (u "Unknown ID"));
        title := dict_get data (u "title") (VStr (u "No title provided"));
        price := dict_get data (u "price") (VStr (u "Unknown price"));
        currency := dict_get data (u "currency") (VStr (u "Unknown currency"));
        brand_title := dict_get data (u "brand_title") (VStr (u "Unknown brand"));
        size_title := dict_get data (u "size_title") (VStr (u "Unknown size"));
        url := dict_get data (u "url") (VStr (u "No URL provided"));
        photo_url := photo_url;
        description := description;
        rapid_api_description := VNone;
        created_at_ts := created_at_ts;
        status := dict_get data (u "status") (VStr (u "Unknown status"));
        user_feedback := user_feedback |}.

Definition update_description_from_rapid_api
    (self : Item) (rapid_api_description : value) : Item :=
  if truthy rapid_api_description
  then {| raw_data := raw_data self;
          id := id self;
          title := title self;
          price := price self;
          currency := currency self;
          brand_title := brand_title self;
          size_title := size_title self;
          url := url self;
          photo_url := photo_url self;
          description := description self;
          rapid_api_description := rapid_api_description;
          created_at_ts := created_at_ts self;
          status := status self;
          user_feedback := user_feedback self |}
  else self.

Definition get_description (self : Item) : value :=
  if truthy (rapid_api_description self)
  then rapid_api_description self
  else VStr (description self).

End WithRuntime.
End item.

(** ** [src/bot/main.py]: class [MyBot] *)

Module main.

(** An entry of [brand_channels.json] and the value [brand_aliases]
    gives an alias. *)
Record brand_config : Type := {
  config_channel_id : Z;
  config_aliases : list str
}.

Record route : Type := {
  main_brand : str;
  channel_id : Z
}.

(** [brand_aliases]: a [dict], walked in insertion order by
    [_find_matching_brand]. *)
Definition alias_index := list (str * route).

Definition specific_brands : list str :=
  [ u "cole buxton"; u "acne studios"; u "our legacy"; u "canada goose";
    u "palace"; u "bape"; u "clints"; u "stussy" ].

Definition child_indicators : list str :=
  [ u "months"; u "years"; u "child"; u "kids"; u "baby" ].



Section Matcher.
Context {rt : Runtime}.

(** Lines 36-47. *)
Definition register_aliases (brand : str) (data : brand_config)
    (alias_mapping : alias_index) : alias_index :=
  fold_left
    (fun mapping alias =>
       dict_set (lower alias)
                {| main_brand := brand; channel_id := config_channel_id data |}
                mapping)
    (config_aliases data) alias_mapping.

Definition _create_alias_mapping
    (brand_channels : list (str * brand_config)) : alias_index :=
  fold_left
    (fun mapping entry => register_aliases (fst entry) (snd entry) mapping)
    brand_channels [].

(** Lines 70-76. *)
Definition variations (brand_lower : str) : list str :=
  [ brand_lower;
    replace (u " ") [] brand_lower;
    replace [252%N] (u "u") brand_lower;
    replace (u "-") (u " ") brand_lower;
    replace (u ".") [] brand_lower ].

(** Lines 79-81. *)
Fixpoint first_variation (brand_aliases : alias_index) (vs : list str)
    : option route :=
  match vs with
  | [] => None
  | variation :: rest =>
      match lookup variation brand_aliases with
      | Some data => Some data
      | None => first_variation brand_aliases rest
      end
  end.

(** Lines 86-88: the test of the collaboration rule for one alias. *)
Definition split_rule (brand_lower alias : str) : bool :=
  contains (u " x ") brand_lower &&
  existsb (fun part => str_eqb (strip part) alias)
          (split (u " x ") brand_lower).

(** Lines 92-94: the test of the fixed-list rule for one alias. *)
Definition fixed_list_rule (brand_lower alias : str) : bool :=
  existsb (str_eqb alias) specific_brands && contains alias brand_lower.

Definition either_rule (brand_lower alias : str) : bool :=
  split_rule brand_lower alias || fixed_list_rule brand_lower alias.

(** An entry of the index neither rule matches. *)
Definition unmatched (brand_lower : str) (entry : str * route) : bool :=
  negb (either_rule brand_lower (fst entry)).

(** Lines 84-95: one pass over the items of [brand_aliases]; both tests
    are made for an alias before the next alias is looked at. *)
Fixpoint partial_match (brand_lower : str) (items : alias_index)
    : option route :=
  match items with
  | [] => None
  | (alias, data) :: rest =>
      if split_rule brand_lower alias then Some data
      else if fixed_list_rule brand_lower alias then Some data
      else partial_match brand_lower rest
  end.

Definition _find_matching_brand (brand_aliases : alias_index)
    (brand_title : str) : option route :=
  match brand_title with
  | [] => None
  | _ :: _ =>
      let brand_lower := strip (lower brand_title) in
      match lookup brand_lower brand_aliases with
      | Some data => Some data
      | None =>
          match first_variation brand_aliases (variations brand_lower) with
          | Some data => Some data
          | None => partial_match brand_lower brand_aliases
          end
      end
  end.

(** Lines 327-343. *)
Definition _is_child_size (size_title : str) : bool :=
  match size_title with
  | [] => false
  | _ :: _ =>
      let size_lower := lower size_title in
      existsb (fun indicator => contains indicator size_lower) child_indicators
  end.

End Matcher.

(** *** The renderer *)

(** Lines 186-191; [s * n] is empty for [n <= 0]. *)
Definition star_count (reputation_percentage : Q) : Z :=
  py_round (fl (reputation_percentage / 20)).



Definition reputation_percentage (positive total : Z) : Q :=
  if (total >? 0)%Z
  then py_round1 (fl (fl (fl (inject_Z positive) * 100) / fl (inject_Z total)))
  else 0.


(** Lines 292-302, on the value of [seconds_diff]. *)
Definition plural (n : Z) : str := if (n =? 1)%Z then [] else u "s".

Definition time_ago_of (seconds_diff : Z) : str :=
  if (seconds_diff <? 60)%Z
  then str_of_int seconds_diff ++ u " seconds ago"
  else if (seconds_diff <? 3600)%Z
  then let minutes := (seconds_diff / 60)%Z in
       str_of_int minutes ++ u " minute" ++ plural minutes ++ u " ago"
  else if (seconds_diff <? 86400)%Z
  then let hours := (seconds_diff / 3600)%Z in
       str_of_int hours ++ u " hour" ++ plural hours ++ u " ago"
  else let days := (seconds_diff / 86400)%Z in
       str_of_int days ++ u " day" ++ plural days ++ u " ago".

(** Lines 288-290: [diff.total_seconds()] is the [float] nearest to the
    microseconds of [diff] over 10 ** 6, and [int] drops its fraction,
    towards zero. *)
Definition time_ago (now created_at : datetime) : str :=
  time_ago_of (trunc (fl ((now - created_at) # 1000000))).

(** Line 206. *)
Definition shown_description (rapid_api_description item_description : value)
    : value :=
  if truthy rapid_api_description
  then rapid_api_description
  else item_description.

(** *** Effects: the bot's state and what it does to the outside *)

Inductive request : Type :=
| GetUserByID (user_id : Z)
| GetProductByID (item_id : Z).

(** What [requests.get] meets: a response with its status and the JSON
    document [response.json()] decodes from its body, or a failure below
    HTTP (timeout, refused connection). *)
Inductive response : Type :=
| Response (status_code : Z) (body : value)
| TransportFailure.

Inductive event : Type :=
| EvGet (r : request)
| EvSleep (seconds : Z)
| EvSend (channel : Z) (item_id : Z) (delivered : bool)
| EvUpdater (item_id : Z).

(** The attributes of a search result [check_vinted] reads. *)
Record listing : Type := {
  id : Z;
  title : str;
  brand_title : str;
  size_title : str;
  user_id : option Z;
  description : value;
  raw_data : dict
}.

Record bot : Type := {
  sent_items : list Z;
  trace : list event
}.

Definition emit (e : event) (s : bot) : bot :=
  {| sent_items := sent_items s; trace := trace s ++ [e] |}.

(** The bot after the events [evs], its sent list untouched. *)
Definition extend (s : bot) (evs : list event) : bot :=
  {| sent_items := sent_items s; trace := trace s ++ evs |}.

(** Counting in a trace: the requests made, the attempts to notify about
    an item, and the notifications delivered. *)
Definition is_get (e : event) : bool :=
  match e with EvGet _ => true | _ => false end.

Definition is_send (item_id : Z) (e : event) : bool :=
  match e with EvSend _ i _ => Z.eqb i item_id | _ => false end.

Definition is_delivery (item_id : Z) (e : event) : bool :=
  match e with EvSend _ i true => Z.eqb i item_id | _ => false end.

Definition is_http (e : event) : bool :=
  match e with EvGet _ | EvSleep _ => true | _ => false end.

Definition gets (evs : list event) : nat := List.length (filter is_get evs).

Definition sends (item_id : Z) (evs : list event) : nat :=
  List.length (filter (is_send item_id) evs).

Definition deliveries (item_id : Z) (evs : list event) : nat :=
  List.length (filter (is_delivery item_id) evs).

(** [400 <= status < 600], the test of [raise_for_status]. *)
Definition is_error (status : Z) : bool :=
  ((400 <=? status) && (status <? 600))%Z.

(** Computations that change the bot and may raise; the state reached
    when an exception is raised is kept, as mutation of [self] is. *)
Definition M (A : Type) : Type := bot -> result A * bot.

Definition ret {A} (a : A) : M A := fun s => (Ok a, s).

Definition raise {A} (e : exn) : M A := fun s => (Raise e, s).

Definition mbind {A B} (m : M A) (k : A -> M B) : M B :=
  fun s =>
    match m s with
    | (Ok a, s') => k a s'
    | (Raise e, s') => (Raise e, s')
    end.

Definition lift {A} (r : result A) : M A := fun s => (r, s).

(** [try: body / except ...: handler]; [handler e] is [None] when no
    [except] clause takes [e]. *)
Definition try_except {A} (body : M A) (handler : exn -> option (M A)) : M A :=
  fun s =>
    match body s with
    | (Ok a, s') => (Ok a, s')
    | (Raise e, s') =>
        match handler e with
        | Some h => h s'
        | None => (Raise e, s')
        end
    end.

Notation "x <~ m ;; k" := (mbind m (fun x => k))
  (at level 61, m at next level, right associativity).
Notation "m ;;; k" := (mbind m (fun _ => k))
  (at level 61, right associativity).

(** How a pass through the body of a [for] loop ends. *)
Inductive flow (A : Type) : Type :=
| Return (a : A)
| Continue
| Break.
Arguments Return {A} a.
Arguments Continue {A}.
Arguments Break {A}.

Section Bot.
Context {rt : Runtime}.

(** The outside, read at the number of events that went before: the
    enrichment endpoint, the channel cache and the channel sink. *)
Variable http : nat -> request -> response.
Variable get_channel : nat -> Z -> bool.
Variable embed : Type.
Variable channel_send : nat -> Z -> embed -> bool.

(** Lines 196-276 of [send_item_to_discord] without line 205: the embed
    and the view built from the listing, the feedback and the description
    at a clock reading, or the exception this raises.  Lines 196-202, which
    come before the fetch of line 205, only read attributes the listing
    has. *)
Variable build_embed : listing -> value -> value -> nat -> result embed.

Variable brand_aliases : alias_index.

Definition requests_get (r : request) : M (Z * value) :=
  fun s =>
    match http (List.length (trace s)) r with
    | Response status body => (Ok (status, body), emit (EvGet r) s)
    | TransportFailure => (Raise RequestException, emit (EvGet r) s)
    end.

Definition raise_for_status (status : Z) : M unit :=
  if is_error status
  then raise (HTTPError status)
  else ret tt.

Definition sleep (seconds : Z) : M unit :=
  fun s => (Ok tt, emit (EvSleep seconds) s).

(** One pass through the body of the retry loop, lines 132-147 and
    166-181; [on_success] is what is returned from the decoded body. *)
Definition attempt_once (r : request) (on_success : value -> result value)
    (attempt : Z) : M (flow value) :=
  try_except
    (response <~ requests_get r;;
     raise_for_status (fst response);;;
     data <~ lift (on_success (snd response));;
     ret (Return data))
    (fun e =>
       match e with
       | HTTPError status =>
           Some (if (status =? 429)%Z
                 then sleep (2 ^ attempt);;; ret Continue
                 else ret Break)
       | RequestException =>
           Some (sleep (2 ^ attempt);;; ret Continue)
       | _ => None
       end).

(** [for attempt in range(3)] and the two lines after the loop. *)
Fixpoint retry (r : request) (on_success : value -> result value)
    (attempts : list Z) : M value :=
  match attempts with
  | [] => ret VNone
  | attempt :: rest =>
      f <~ attempt_once r on_success attempt;;
      match f with
      | Return data => ret data
      | Break => ret VNone
      | Continue => retry r on_success rest
      end
  end.

Definition range3 : list Z := [0; 1; 2]%Z.

Definition fetch_user_feedback (user_id : Z) : M value :=
  retry (GetUserByID user_id) (fun feedback_data => Ok feedback_data) range3.

Definition fetch_item_description (item_id : Z) : M value :=
  retry (GetProductByID item_id)
        (fun item_data => get item_data (u "description") VNone) range3.

(** [await channel.send(embed=embed, view=view)]. *)
Definition send (channel : Z) (item : listing) (e : embed) : M unit :=
  fun s =>
    if channel_send (List.length (trace s)) channel e
    then (Ok tt, emit (EvSend channel (id item) true) s)
    else (Raise DiscordException, emit (EvSend channel (id item) false) s).

(** Lines 193-285. *)
Definition send_item_to_discord (channel : Z) (item : listing)
    (user_feedback : value) : M unit :=
  try_except
    (rapid_api_description <~ fetch_item_description (id item);;
     let description :=
       shown_description rapid_api_description (description item) in
     e <~ (fun s => (build_embed item user_feedback description
                                 (List.length (trace s)), s));;
     send channel item e;;;
     (fun s => (Ok tt, emit (EvUpdater (id item)) s)))
    (fun _ => Some (ret tt)).

Definition append_sent (item_id : Z) : M unit :=
  fun s => (Ok tt, {| sent_items := sent_items s ++ [item_id];
                      trace := trace s |}).

(** The body of the loop of [check_vinted], lines 353-389. *)
Definition process_item (item : listing) : M unit :=
  let brand_title :=
    match brand_title item with
    | [] => []
    | _ :: _ => lower (brand_title item)
    end in
  if _is_child_size (size_title item) then ret tt
  else
    match _find_matching_brand brand_aliases brand_title with
    | None => ret tt
    | Some brand_match =>
        match user_id item with
        | None => ret tt
        | Some user =>
            fun s =>
              if existsb (Z.eqb (id item)) (sent_items s) then (Ok tt, s)
              else if negb (get_channel (List.length (trace s))
                                        (channel_id brand_match))
              then (Ok tt, s)
              else
                (user_feedback <~ fetch_user_feedback user;;
                 try_except
                   (send_item_to_discord (channel_id brand_match) item
                                         user_feedback;;;
                    append_sent (id item))
                   (fun _ => Some (ret tt))) s
        end
    end.

Fixpoint for_each (items : list listing) : M unit :=
  match items with
  | [] => ret tt
  | item :: rest => process_item item;;; for_each rest
  end.

(** One tick; [items] is what [fetch_vinted_items] returned. *)
Definition check_vinted (items : option (list listing)) : M unit :=
  match items with
  | None => ret tt
  | Some items => for_each items
  end.

(** The polling loop over the ticks of a run; an exception that leaves
    [check_vinted] ends the loop. *)
Fixpoint run (ticks : list (option (list listing))) : M unit :=
  match ticks with
  | [] => ret tt
  | items :: later => check_vinted items;;; run later
  end.

End Bot.

Definition initial : bot := {| sent_items := []; trace := [] |}.

(** The invariant of the sent list: an item the channel was tried for
    was tried once and is in the list. *)
Definition marked (s : bot) : Prop :=
  forall item_id,
    sends item_id (trace s) = 0%nat
    \/ (sends item_id (trace s) = 1%nat /\ In item_id (sent_items s)).

(** Further counts in a trace: the live-update tasks started for an item
    and the seconds slept. *)
Definition is_updater (item_id : Z) (e : event) : bool :=
  match e with EvUpdater i => Z.eqb i item_id | _ => false end.

Definition updaters (item_id : Z) (evs : list event) : nat :=
  List.length (filter (is_updater item_id) evs).

Fixpoint total_sleep (evs : list event) : Z :=
  match evs with
  | [] => 0%Z
  | EvSleep seconds :: rest => (seconds + total_sleep rest)%Z
  | _ :: rest => total_sleep rest
  end.

(** *** The live update of a sent message, lines 304-325 *)

(** A field of an embed. *)
Record field : Type := {
  field_name : str;
  field_value : str;
  field_inline : bool
}.

(** How [await message.edit(embed=embed)] ends: normally, with
    [discord.errors.NotFound], with another [discord.errors.HTTPException]
    and its [code], or with an exception of another class. *)
Inductive edit_outcome : Type :=
| Edited
| NotFound
| HTTPException (code : Z)
| OtherFailure.

(** Where the task is: in the [asyncio.sleep] of its next round, out of
    the loop by [break], or ended by an exception nothing caught. *)
Inductive task_state : Type :=
| Sleeping
| Stopped
| Failed.

(** The name of line 311: U+231B, a space, "Time Uploaded". *)
Definition time_uploaded : str := 8987%N :: u " Time Uploaded".

(** [embed.set_field_at(0, name=..., value=..., inline=True)]: an
    [IndexError] (here [None]) when the embed has no field. *)
Definition set_field_at_0 (fields : list field) (value : str)
    : option (list field) :=
  match fields with
  | [] => None
  | _ :: rest =>
      Some ({| field_name := time_uploaded; field_value := value;
               field_inline := true |} :: rest)
  end.

(** What a task has done: the values it submitted with [message.edit], in
    order, the fields of the embed object it holds, and where it is. *)
Record updater : Type := {
  edits : list str;
  fields : list field;
  state : task_state
}.

Definition submitted (value : str) (r : updater) : updater :=
  {| edits := value :: edits r; fields := fields r; state := state r |}.

(** The first [rounds] rounds of the loop, from round [round] on.  [clock]
    is what [datetime.now] reads in [time_ago] in a round, [edit] how the
    edit of a round ends.  The embed object is the same in every round, so
    the fields written stay. *)
Fixpoint update_time_difference (clock : nat -> datetime)
    (edit : nat -> edit_outcome) (created_at : datetime)
    (rounds round : nat) (embed_fields : list field) : updater :=
  match rounds with
  | O => {| edits := []; fields := embed_fields; state := Sleeping |}
  | S more =>
      let time_diff := time_ago (clock round) created_at in
      match set_field_at_0 embed_fields time_diff with
      | None => {| edits := []; fields := embed_fields; state := Failed |}
      | Some written =>
          let stop :=
            {| edits := [time_diff]; fields := written; state := Stopped |} in
          let next :=
            submitted time_diff
              (update_time_difference clock edit created_at more (S round)
                 written) in
          match edit round with
          | Edited => next
          | NotFound => stop
          | HTTPException code =>
              if (code =? 50001)%Z then stop
              else if (code =? 50034)%Z then stop
              else next
          | OtherFailure =>
              {| edits := [time_diff]; fields := written; state := Failed |}
          end
      end
  end.

(** The outcomes after which the loop is left by [break]. *)
Definition terminal (o : edit_outcome) : bool :=
  match o with
  | NotFound => true
  | HTTPException code => ((code =? 50001) || (code =? 50034))%Z
  | _ => false
  end.

(** The outcomes after which the loop goes on. *)
Definition tolerated (o : edit_outcome) : bool :=
  match o with
  | Edited => true
  | HTTPException code => negb ((code =? 50001) || (code =? 50034))%Z
  | _ => false
  end.

End main.

(** ** The specification's reading of description resolution

    Section 4.1: flat field, then item-box nested field, then page-props
    nested field, then sections list scan, then default; the first
    non-blank candidate wins. *)

Module Spec.

Definition opt (o : option value) : list value :=
  match o with
  | Some v => [v]
  | None => []
  end.

(** The field [k] of a nested object, when there is one. *)
Definition field (k : str) (o : option value) : option value :=
  match o with
  | Some (VDict d) => lookup k d
  | _ => None
  end.

Definition flat_field (data : dict) : option value :=
  lookup (u "description") data.

Definition item_box_field (data : dict) : option value :=
  field (u "description") (lookup (u "item_box") data).

Definition page_props_field (data : dict) : option value :=
  field (u "description")
        (field (u "itemDto") (field (u "pageProps") (lookup (u "props") data))).

Definition section_entry (section : value) : list value :=
  match section with
  | VDict d =>
      if is_str (u "description") (dict_get d (u "name") VNone)
      then match field (u "description") (lookup (u "data") d) with
           | Some v => if truthy v then [v] else []
           | None => []
           end
      else []
  | _ => []
  end.

Definition sections_scan (data : dict) : list value :=
  match lookup (u "sections") data with
  | Some (VList l) => flat_map section_entry l
  | _ => []
  end.

Definition candidates (data : dict) : list value :=
  opt (flat_field data) ++ opt (item_box_field data)
    ++ opt (page_props_field data) ++ sections_scan data.

Definition default_description : str := u "No description provided".

(** The first candidate that is a non-blank string, trimmed. *)
Fixpoint first_non_blank (cands : list value) : str :=
  match cands with
  | [] => default_description
  | VStr s :: rest =>
      match strip s with
      | [] => first_non_blank rest
      | _ :: _ => strip s
      end
  | _ :: rest => first_non_blank rest
  end.

Definition description (data : dict) : str := first_non_blank (candidates data).

(** Records of the expected shape: nested objects are objects or absent,
    [sections] is a list of objects or absent, and every candidate is a
    string or a value Python takes for false. *)
Definition dict_or_absent (o : option value) : bool :=
  match o with
  | None | Some (VDict _) => true
  | Some _ => false
  end.


Definition textual (v : value) : bool :=
  match v with
  | VStr _ => true
  | _ => negb (truthy v)
  end.

Definition section_ok (section : value) : bool :=
  match section with
  | VDict d =>
      if is_str (u "description") (dict_get d (u "name") VNone)
      then dict_or_absent (lookup (u "data") d)
      else true
  | _ => false
  end.

Definition sections_ok (data : dict) : bool :=
  match lookup (u "sections") data with
  | None => true
  | Some (VList l) => forallb section_ok l
  | Some _ => false
  end.

Definition shape_ok (data : dict) : bool :=
  dict_or_absent (lookup (u "item_box") data)
  && dict_or_absent (lookup (u "props") data)
  && dict_or_absent (field (u "pageProps") (lookup (u "props") data))
  && dict_or_absent
       (field (u "itemDto") (field (u "pageProps") (lookup (u "props") data)))
  && sections_ok data
  && forallb textual (candidates data).

(** Section 4.4 on the star rating: [round(positive * 100 / total)] if
    [total > 0] else 0, then [round(percentage / 20)], the two quotients
    being [float]s. *)
Definition percentage (positive total : Z) : Z :=
  if (total >? 0)%Z
  then py_round (fl (inject_Z (positive * 100) / inject_Z total))
  else 0%Z.

Definition star_count (positive total : Z) : Z :=
  py_round (fl (inject_Z (percentage positive total) / 20)).

(** The photo timestamp of a record whose photo is an object or absent:
    the field timestamp of its field high_resolution, [None] when there is
    none. *)
Definition photo_timestamp_value (data : dict) : value :=
  match field (u "timestamp")
          (field (u "high_resolution") (lookup (u "photo") data)) with
  | Some v => v
  | None => VNone
  end.

(** Section 4.2 on the index: every alias of every configured brand is
    registered in lower case, and a later entry for an alias overwrites an
    earlier one. *)
Section Index.
Context {rt : Runtime}.

Definition alias_entries (brand_channels : list (str * main.brand_config))
    : list (str * main.route) :=
  flat_map
    (fun entry =>
       map (fun alias =>
              (lower alias,
               {| main.main_brand := fst entry;
                  main.channel_id := main.config_channel_id (snd entry) |}))
           (main.config_aliases (snd entry)))
    brand_channels.

(** The route of the last written entry for [key]. *)
Definition last_route (entries : list (str * main.route)) (key : str)
    : option main.route :=
  match find (fun e => str_eqb (fst e) key) (rev entries) with
  | Some e => Some (snd e)
  | None => None
  end.

End Index.

End Spec.

(** ** A runtime for the worked examples

    It agrees with CPython on what the examples feed it: ASCII strings for
    [lower], numbers for [fromtimestamp] (years 1 to 9999, beyond that
    [ValueError], beyond the range of [time_t] [OverflowError]), and for
    [fromisoformat] the strings listed, of which only the first is an ISO
    date. *)

Module Sample.

Definition ascii_lower (s : str) : str :=
  map (fun c => if ((65 <=? c) && (c <=? 90))%N then (c + 32)%N else c) s.

Definition utc_fromtimestamp (x : Q) : result datetime :=
  if Qle_bool (inject_Z (-62135596800)) x && Qle_bool x (inject_Z 253402300799)
  then Ok (py_round (x * 1000000))
  else if Qle_bool (inject_Z (- 2 ^ 63)) x && Qle_bool x (inject_Z (2 ^ 63))
  then Raise ValueError
  else Raise OverflowError.

Definition iso_table : list (str * option datetime) :=
  [ (u "2023-11-14T22:13:20+00:00", Some 1700000000000000%Z);
    (u "2001-09-09T01:46:40+00:00", Some 1000000000000000%Z);
    (u "yesterday", None);
    (u "last week", None) ].

Definition table_fromisoformat (s : str) : option datetime :=
  match lookup s iso_table with
  | Some r => r
  | None => None
  end.

#[export] Instance runtime : Runtime := {|
  lower := ascii_lower;
  fromtimestamp := utc_fromtimestamp;
  fromisoformat := table_fromisoformat
|}.

End Sample.

(* ================================================================= *)
(** * Part II: properties *)
(* ================================================================= *)

Unset Implicit Arguments.
Local Open Scope Z_scope.

(** ** Strings and exceptions *)

Lemma str_eqb_eq (a b : str) : str_eqb a b = true <-> a = b.
Proof.
  unfold str_eqb. destruct (list_eq_dec N.eq_dec a b); split; congruence.
Qed.

Lemma str_eqb_refl (a : str) : str_eqb a a = true.
Proof. now apply str_eqb_eq. Qed.

Lemma bind_ok {A B} (m : result A) (k : A -> result B) (b : B) :
  bind m k = Ok b -> exists a, m = Ok a /\ k a = Ok b.
Proof. destruct m as [a|e]; simpl; [eauto | discriminate]. Qed.

(** ** The listing model *)

Section ItemFacts.
Context {rt : Runtime}.
Import item.

Lemma first_valid_textual (cands : list value) :
  forallb Spec.textual cands = true ->
  first_valid cands = Ok (Spec.first_non_blank cands).
Proof.
  induction cands as [|c cands IH]; simpl; [reflexivity|].
  intros H. apply andb_true_iff in H as [Hc Hrest].
  specialize (IH Hrest).
  destruct c as [| b | n | x | s | l | d]; simpl in *;
    try (rewrite negb_true_iff in Hc; rewrite Hc); try exact IH.
  destruct s as [|c s]; simpl; [exact IH|].
  destruct (strip (c :: s)); [exact IH | reflexivity].
Qed.

Lemma scan_sections_ok (l : list value) :
  forallb Spec.section_ok l = true ->
  scan_sections l = Ok (flat_map Spec.section_entry l).
Proof.
  induction l as [|sec l IH]; simpl; [reflexivity|].
  intros H. apply andb_true_iff in H as [Hsec Hrest].
  rewrite (IH Hrest).
  destruct sec as [| b | n | x | s | l' | d]; simpl in *; try discriminate.
  destruct (is_str (u "description") (dict_get d (u "name") VNone)); simpl;
    [|reflexivity].
  unfold dict_get at 1.
  destruct (lookup (u "data") d) as [[| b | n | x | s | l' | d']|];
    simpl in *; try discriminate.
  - unfold dict_get. destruct (lookup (u "description") d'); simpl.
    + destruct (truthy v); reflexivity.
    + reflexivity.
  - reflexivity.
Qed.

Lemma boxed_candidate (o : option value) :
  Spec.dict_or_absent o = true ->
  (in_box <- contains_key (u "description")
               (match o with Some v => v | None => VDict [] end);;
   if in_box
   then d <- subscript (match o with Some v => v | None => VDict [] end)
                       (u "description");; Ok [d]
   else Ok [])
  = Ok (Spec.opt (Spec.field (u "description") o)).
Proof.
  destruct o as [[| b | n | x | s | l | d]|]; simpl; try discriminate;
    intros _; [|reflexivity].
  unfold dict_mem. destruct (lookup (u "description") d); reflexivity.
Qed.

Lemma candidates_refine (data : dict) :
  Spec.shape_ok data = true ->
  description_candidates data = Ok (Spec.candidates data).
Proof.
  unfold Spec.shape_ok. rewrite !andb_true_iff.
  intros [[[[[Hbox Hprops] Hpage] Hdto] Hsec] _].
  unfold description_candidates, Spec.candidates.
  unfold Spec.flat_field, Spec.item_box_field, Spec.page_props_field,
    Spec.sections_scan, Spec.sections_ok in *.
  change (dict_get data (u "item_box") (VDict []))
    with (match lookup (u "item_box") data with
          | Some v => v | None => VDict [] end).
  pose proof (boxed_candidate _ Hbox) as Eb.
  apply bind_ok in Eb as Eb'. destruct Eb' as [in_box [E1 E2]].
  rewrite E1. cbn [bind]. rewrite E2. cbn [bind].
  assert (Epp : get (dict_get data (u "props") (VDict [])) (u "pageProps") (VDict [])
                = Ok (match Spec.field (u "pageProps") (lookup (u "props") data) with
                      | Some v => v | None => VDict [] end)).
  { unfold dict_get at 1.
    destruct (lookup (u "props") data) as [[| b | n | x | s | l | d]|];
      simpl in *; try discriminate; reflexivity. }
  rewrite Epp. cbn [bind].
  assert (Edto : get (match Spec.field (u "pageProps") (lookup (u "props") data) with
                      | Some v => v | None => VDict [] end) (u "itemDto") (VDict [])
                 = Ok (match Spec.field (u "itemDto")
                               (Spec.field (u "pageProps") (lookup (u "props") data)) with
                       | Some v => v | None => VDict [] end)).
  { destruct (Spec.field (u "pageProps") (lookup (u "props") data))
      as [[| b | n | x | s | l | d]|]; simpl in *; try discriminate; reflexivity. }
  rewrite Edto. cbn [bind].
  pose proof (boxed_candidate _ Hdto) as Ed.
  apply bind_ok in Ed as Ed'. destruct Ed' as [in_dto [E3 E4]].
  rewrite E3. cbn [bind]. rewrite E4. cbn [bind].
  assert (Es : (sections <- iterate (dict_get data (u "sections") (VList []));;
                scan_sections sections)
               = Ok (match lookup (u "sections") data with
                     | Some (VList l) => flat_map Spec.section_entry l
                     | _ => []
                     end)).
  { unfold dict_get.
    destruct (lookup (u "sections") data) as [[| b | n | x | s | l | d]|];
      simpl in *; try discriminate; [|reflexivity].
    now apply scan_sections_ok. }
  apply bind_ok in Es as Es'. destruct Es' as [secs [E5 E6]].
  rewrite E5. cbn [bind]. rewrite E6. cbn [bind].
  f_equal. f_equal.
  unfold dict_mem, dict_get.
  destruct (lookup (u "description") data); reflexivity.
Qed.

Lemma extract_description_refine (data : dict) :
  Spec.shape_ok data = true ->
  _extract_description data = Ok (Spec.description data).
Proof.
  intros H. unfold _extract_description.
  rewrite (candidates_refine _ H). cbn [bind].
  apply first_valid_textual.
  unfold Spec.shape_ok in H. rewrite !andb_true_iff in H. apply H.
Qed.



Lemma first_valid_nonempty (cands : list value) (r : str) :
  first_valid cands = Ok r -> r <> [].
Proof.
  induction cands as [|c cands IH]; simpl.
  - intros [= <-]. discriminate.
  - destruct (truthy c); [|exact IH].
    destruct c as [| b | n | x | s | l | d]; try discriminate.
    destruct (strip s) eqn:E; [exact IH|].
    intros [= <-]. discriminate.
Qed.

Lemma extract_description_nonempty (data : dict) (r : str) :
  _extract_description data = Ok r -> r <> [].
Proof.
  unfold _extract_description. intros H.
  apply bind_ok in H as [cands [_ H]].
  now apply first_valid_nonempty in H.
Qed.

Lemma init_fields (now : datetime) (data : dict) (it : Item) :
  __init__ now data = Ok it ->
  rapid_api_description it = VNone /\ description it <> [].
Proof.
  unfold __init__. intros H.
  apply bind_ok in H as [photo [_ H]].
  apply bind_ok in H as [desc [Hd H]].
  apply bind_ok in H as [ts [_ H]].
  apply bind_ok in H as [fb [_ H]].
  injection H as <-. simpl. split; [reflexivity|].
  now apply extract_description_nonempty in Hd.
Qed.





(** C4.  Construction raises on a record whose photo is null
    ([AttributeError], line 21) and on a record whose sections are null
    ([TypeError], line 87), whatever the clock reads. *)
Theorem init_raises_on_null_fields (now : datetime) :
  __init__ now [(u "photo", VNone)] = Raise AttributeError
  /\ __init__ now [(u "id", VInt 7); (u "sections", VNone)] = Raise TypeError.
Proof. split; reflexivity. Qed.

(** C10.  For a listing as the constructor leaves it, after the setter
    is called with [d] the displayed description is [d] exactly when [d]
    is truthy; otherwise the slot is still unset and the display is the
    listing's own description, so the display is never empty.  Line 206
    of the renderer takes the same decision.  On any listing a falsy [d]
    changes nothing. *)
Theorem enriched_description_display
    (now : datetime) (data : dict) (it : Item) (d : value) :
  __init__ now data = Ok it ->
  (get_description (update_description_from_rapid_api it d) = d
     <-> truthy d = true)
  /\ (truthy d = false ->
      rapid_api_description (update_description_from_rapid_api it d) = VNone
      /\ get_description (update_description_from_rapid_api it d)
         = VStr (description it))
  /\ truthy (get_description (update_description_from_rapid_api it d)) = true
  /\ main.shown_description d (VStr (description it))
     = get_description (update_description_from_rapid_api it d)
  /\ (forall self : Item,
        truthy d = false -> update_description_from_rapid_api self d = self).
Proof.
  intros Hinit. apply init_fields in Hinit as [Hslot Hdesc].
  unfold update_description_from_rapid_api, get_description,
    main.shown_description.
  destruct (truthy d) eqn:Hd; simpl; rewrite ?Hd, ?Hslot; simpl.
  - repeat split; auto; discriminate.
  - assert (Ht : truthy (VStr (description it)) = true).
    { simpl. destruct (description it); [contradiction | reflexivity]. }
    repeat split; auto; try discriminate.
    intros <-. congruence.
Qed.


End ItemFacts.

(** *** The listing model on sample records *)



Example description_sections_only :
  item._extract_description
    [ (u "id", VInt 1);
      (u "sections",
       VList [ VDict [ (u "name", VStr (u "measurements")) ];
               VDict [ (u "name", VStr (u "description"));
                       (u "data",
                        VDict [ (u "description",
                                 VStr (u "From the sections")) ]) ] ]) ]
  = Ok (u "From the sections").
Proof. reflexivity. Qed.

Lemma enriched_description_display_witness :
  exists it,
    item.__init__ (rt := Sample.runtime) 1800000000000000
      [ (u "id", VInt 1); (u "description", VStr (u "Wool coat")) ] = Ok it
    /\ item.get_description
         (item.update_description_from_rapid_api it (VStr []))
       = VStr (u "Wool coat").
Proof.
  eexists. split; [reflexivity|].
  refine (proj2 (proj1 (proj2
    (enriched_description_display (rt := Sample.runtime) 1800000000000000
       [ (u "id", VInt 1); (u "description", VStr (u "Wool coat")) ]
       _ (VStr []) eq_refl)) eq_refl)).
Defined.



(** ** Floating-point arithmetic *)

Section FloatFacts.

(** *** Rounding to an integer *)

Lemma py_round_scale (n : Z) (d c : positive) :
  py_round ((n * Zpos c) # (d * c)) = py_round (n # d).
Proof.
  unfold py_round. cbn [Qnum Qden].
  rewrite Pos2Z.inj_mul.
  rewrite Z.div_mul_cancel_r by lia.
  rewrite Z.mul_mod_distr_r by lia.
  replace (2 * (n mod Z.pos d * Z.pos c)) with (2 * (n mod Z.pos d) * Z.pos c) by lia.
  rewrite <- Zmult_compare_compat_r by lia. reflexivity.
Qed.

Lemma py_round_Qeq (x y : Q) : (x == y)%Q -> py_round x = py_round y.
Proof.
  destruct x as [nx dx], y as [ny dy]. unfold Qeq. cbn [Qnum Qden]. intros H.
  rewrite <- (py_round_scale nx dx dy), <- (py_round_scale ny dy dx).
  rewrite H. now rewrite Pos.mul_comm.
Qed.

Lemma py_round_same_den (n1 n2 : Z) (d : positive) :
  n1 <= n2 -> py_round (n1 # d) <= py_round (n2 # d).
Proof.
  intros H. unfold py_round. cbn [Qnum Qden].
  set (D := Z.pos d). assert (HD : 0 < D) by (unfold D; lia).
  pose proof (Z.div_mod n1 D ltac:(lia)) as E1.
  pose proof (Z.div_mod n2 D ltac:(lia)) as E2.
  pose proof (Z.mod_pos_bound n1 D HD) as B1.
  pose proof (Z.mod_pos_bound n2 D HD) as B2.
  assert (Hf : n1 / D <= n2 / D) by (apply Z.div_le_mono; lia).
  destruct (Z.eq_dec (n1 / D) (n2 / D)) as [Ef|Nf].
  - assert (Hr : n1 mod D <= n2 mod D) by nia.
    rewrite <- Ef.
    destruct (2 * (n1 mod D) ?= D) eqn:C1; destruct (2 * (n2 mod D) ?= D) eqn:C2;
      try apply Z.compare_eq in C1; try apply Z.compare_eq in C2;
      try rewrite Z.compare_lt_iff in C1; try rewrite Z.compare_lt_iff in C2;
      try rewrite Z.compare_gt_iff in C1; try rewrite Z.compare_gt_iff in C2;
      destruct (Z.even (n1 / D)); lia.
  - assert (n1 / D + 1 <= n2 / D) by lia.
    destruct (2 * (n1 mod D) ?= D); destruct (2 * (n2 mod D) ?= D);
      destruct (Z.even (n1 / D)); destruct (Z.even (n2 / D)); lia.
Qed.

Lemma py_round_mono (x y : Q) : (x <= y)%Q -> py_round x <= py_round y.
Proof.
  destruct x as [nx dx], y as [ny dy]. unfold Qle. cbn [Qnum Qden]. intros H.
  rewrite <- (py_round_scale nx dx dy), <- (py_round_scale ny dy dx).
  rewrite (Pos.mul_comm dy dx). now apply py_round_same_den.
Qed.

Lemma py_round_Z (z : Z) : py_round (inject_Z z) = z.
Proof.
  unfold py_round, inject_Z. cbn [Qnum Qden].
  rewrite Z.mod_1_r, Z.div_1_r. reflexivity.
Qed.

(** The result is within one half of the argument. *)
Lemma py_round_near (x : Q) :
  (x - (1 # 2) <= inject_Z (py_round x) <= x + (1 # 2))%Q.
Proof.
  destruct x as [n d]. unfold py_round, Qle, Qplus, Qminus, Qopp, inject_Z.
  cbn [Qnum Qden Qplus Qopp].
  set (D := Z.pos d). assert (HD : 0 < D) by (unfold D; lia).
  pose proof (Z.div_mod n D ltac:(lia)) as E.
  pose proof (Z.mod_pos_bound n D HD) as B.
  rewrite !Pos2Z.inj_mul. fold D.
  destruct (2 * (n mod D) ?= D) eqn:C;
    [apply Z.compare_eq in C | rewrite Z.compare_lt_iff in C
     | rewrite Z.compare_gt_iff in C];
    try destruct (Z.even (n / D)); nia.
Qed.

(** *** Rounding to a binary64 number *)

Local Open Scope Q_scope.

Lemma two_neq_0 : ~ 2 == 0.
Proof. discriminate. Qed.

Lemma pow2_pos (j : Z) : 0 < 2 ^ j.
Proof. apply Qpower_0_lt. reflexivity. Qed.

Lemma pow2_Z (j : Z) : (0 <= j)%Z -> 2 ^ j == inject_Z (2 ^ j).
Proof. intros H. now rewrite Zpower_Qpower. Qed.

Lemma pow2_add (a b : Z) : 2 ^ (a + b) == 2 ^ a * 2 ^ b.
Proof. apply Qpower_plus, two_neq_0. Qed.

Lemma pow2_succ (a : Z) : 2 ^ (a + 1) == 2 * 2 ^ a.
Proof. rewrite pow2_add. change (2 ^ 1) with 2. apply Qmult_comm. Qed.

Lemma pow2_opp (a : Z) : 2 ^ (- a) * 2 ^ a == 1.
Proof.
  rewrite <- pow2_add. replace (- a + a)%Z with 0%Z by lia. reflexivity.
Qed.

Lemma pow2_le (a b : Z) : (a <= b)%Z -> 2 ^ a <= 2 ^ b.
Proof. intros H. apply Qpower_le_compat_l; [exact H | discriminate]. Qed.

Lemma pow2_sub (a b : Z) :
  (0 <= a)%Z -> (0 <= b)%Z ->
  2 ^ (a - b) == inject_Z (2 ^ a) / inject_Z (2 ^ b).
Proof.
  intros Ha Hb. rewrite Qpower_minus by apply two_neq_0.
  now rewrite !pow2_Z.
Qed.

Lemma binade_spec (x : Q) :
  0 < x -> 2 ^ binade x <= x /\ x < 2 ^ (binade x + 1).
Proof.
  intros Hx. unfold binade.
  destruct x as [n d]. cbn [Qnum Qden].
  assert (Hn : (0 < n)%Z) by (unfold Qlt in Hx; simpl in Hx; lia).
  set (ln := Z.log2 n). set (ld := Z.log2 (Z.pos d)).
  destruct (Z.log2_spec n Hn) as [N1 N2]. fold ln in N1, N2.
  destruct (Z.log2_spec (Z.pos d) ltac:(lia)) as [D1 D2]. fold ld in D1, D2.
  assert (Hln : (0 <= ln)%Z) by apply Z.log2_nonneg.
  assert (Hld : (0 <= ld)%Z) by apply Z.log2_nonneg.
  assert (P1 : (0 < 2 ^ ln)%Z) by (apply Z.pow_pos_nonneg; lia).
  assert (P2 : (0 < 2 ^ ld)%Z) by (apply Z.pow_pos_nonneg; lia).
  rewrite Z.pow_succ_r in N2, D2 by lia.
  assert (Up : n # d < 2 ^ (ln - ld + 1)).
  { replace (ln - ld + 1)%Z with ((ln + 1) - ld)%Z by lia.
    rewrite pow2_sub by lia.
    apply Qlt_shift_div_l; [unfold Qlt; simpl; lia|].
    rewrite Z.add_1_r, Z.pow_succ_r by lia.
    unfold Qlt, Qmult, inject_Z. cbn [Qnum Qden]. nia. }
  assert (Lo : 2 ^ (ln - ld - 1) < n # d).
  { replace (ln - ld - 1)%Z with (ln - (ld + 1))%Z by lia.
    rewrite pow2_sub by lia.
    apply Qlt_shift_div_r; [unfold Qlt; simpl; nia|].
    rewrite Z.add_1_r, Z.pow_succ_r by lia.
    unfold Qlt, Qmult, inject_Z. cbn [Qnum Qden]. nia. }
  destruct (Qle_bool (2 ^ (ln - ld)) (n # d)) eqn:E.
  - apply Qle_bool_iff in E. split; [exact E | exact Up].
  - split; [apply Qlt_le_weak; exact Lo|].
    replace (ln - ld - 1 + 1)%Z with (ln - ld)%Z by lia.
    apply Qnot_le_lt. intros H. apply Qle_bool_iff in H. congruence.
Qed.

Lemma scaled_range (x : Q) :
  0 < x ->
  2 ^ 52 <= x * 2 ^ (- (binade x - 52))
  /\ x * 2 ^ (- (binade x - 52)) <= 2 ^ 53.
Proof.
  intros Hx. destruct (binade_spec x Hx) as [Lo Up].
  set (b := binade x) in *.
  pose proof (pow2_pos (- (b - 52))) as P.
  assert (E1 : 2 ^ 52 == 2 ^ b * 2 ^ (- (b - 52)))
    by (rewrite <- pow2_add; now replace (b + - (b - 52))%Z with 52%Z by lia).
  assert (E2 : 2 ^ 53 == 2 ^ (b + 1) * 2 ^ (- (b - 52)))
    by (rewrite <- pow2_add; now replace (b + 1 + - (b - 52))%Z with 53%Z by lia).
  rewrite E1, E2. split.
  - apply Qmult_le_compat_r; [exact Lo | now apply Qlt_le_weak].
  - apply Qmult_le_compat_r; [now apply Qlt_le_weak | now apply Qlt_le_weak].
Qed.

Lemma mantissa_range (x : Q) :
  0 < x ->
  (2 ^ 52 <= py_round (x * 2 ^ (- (binade x - 52))) <= 2 ^ 53)%Z.
Proof.
  intros Hx. destruct (scaled_range x Hx) as [Lo Up].
  split.
  - rewrite <- (py_round_Z (2 ^ 52)). apply py_round_mono.
    now rewrite <- pow2_Z by lia.
  - rewrite <- (py_round_Z (2 ^ 53)). apply py_round_mono.
    now rewrite <- pow2_Z by lia.
Qed.

(** A positive number and its rounding lie in the same closed binade. *)
Lemma fl_pos_range (x : Q) :
  0 < x -> 2 ^ binade x <= fl_pos x /\ fl_pos x <= 2 ^ (binade x + 1).
Proof.
  intros Hx. destruct (mantissa_range x Hx) as [Lo Up]. unfold fl_pos.
  set (b := binade x) in *. set (m := py_round _) in *.
  pose proof (pow2_pos (b - 52)) as P.
  assert (E1 : 2 ^ b == 2 ^ 52 * 2 ^ (b - 52))
    by (rewrite <- pow2_add; now replace (52 + (b - 52))%Z with b by lia).
  assert (E2 : 2 ^ (b + 1) == 2 ^ 53 * 2 ^ (b - 52))
    by (rewrite <- pow2_add; now replace (53 + (b - 52))%Z with (b + 1)%Z by lia).
  rewrite E1, E2. split.
  - apply Qmult_le_compat_r; [|now apply Qlt_le_weak].
    rewrite pow2_Z by lia. now rewrite <- Zle_Qle.
  - apply Qmult_le_compat_r; [|now apply Qlt_le_weak].
    rewrite pow2_Z by lia. now rewrite <- Zle_Qle.
Qed.

Lemma fl_pos_positive (x : Q) : 0 < x -> 0 < fl_pos x.
Proof.
  intros Hx. destruct (fl_pos_range x Hx) as [Lo _].
  eapply Qlt_le_trans; [apply (pow2_pos (binade x)) | exact Lo].
Qed.

(** The error is at most half a unit in the last place, which is at most
    [2 ^ -53] times the number. *)
Lemma fl_pos_near (x : Q) :
  0 < x -> Qabs (fl_pos x - x) <= x * 2 ^ (- 53).
Proof.
  intros Hx. destruct (scaled_range x Hx) as [Lo _].
  unfold fl_pos. set (e := (binade x - 52)%Z) in *.
  set (s := x * 2 ^ (- e)) in *.
  pose proof (py_round_near s) as [N1 N2].
  pose proof (pow2_pos e) as Pe. pose proof (pow2_pos (- e)) as Pm.
  assert (Ex : x == s * 2 ^ e).
  { unfold s. rewrite <- Qmult_assoc, pow2_opp. now rewrite Qmult_1_r. }
  assert (Hh : (1 # 2) * 2 ^ e <= x * 2 ^ (- 53)).
  { assert (E53 : 2 ^ (- 53) == 2 ^ (- e) * 2 ^ (e - 53))
      by (rewrite <- pow2_add; now replace (- e + (e - 53))%Z with (- 53)%Z by lia).
    rewrite E53, Qmult_assoc. fold s.
    assert (Ee : (1 # 2) * 2 ^ e == 2 ^ 52 * 2 ^ (e - 53)).
    { rewrite <- pow2_add. replace (52 + (e - 53))%Z with (e + - 1)%Z by lia.
      rewrite pow2_add. change (2 ^ (- 1)) with (1 # 2). apply Qmult_comm. }
    rewrite Ee. apply Qmult_le_compat_r; [exact Lo|].
    apply Qlt_le_weak, pow2_pos. }
  assert (D : inject_Z (py_round s) * 2 ^ e - x
              == (inject_Z (py_round s) - s) * 2 ^ e).
  { clearbody s. rewrite Ex. ring. }
  rewrite D. clearbody s.
  apply Qabs_Qle_condition. split.
  - apply Qle_trans with (- ((1 # 2) * 2 ^ e)); [now apply Qopp_le_compat|].
    setoid_replace (- ((1 # 2) * 2 ^ e)) with ((- (1 # 2)) * 2 ^ e) by ring.
    apply Qmult_le_compat_r; [lra | now apply Qlt_le_weak].
  - apply Qle_trans with ((1 # 2) * 2 ^ e); [|exact Hh].
    apply Qmult_le_compat_r; [lra | now apply Qlt_le_weak].
Qed.

Lemma fl_pos_mono (x y : Q) : 0 < x -> x <= y -> fl_pos x <= fl_pos y.
Proof.
  intros Hx Hxy. assert (Hy : 0 < y) by (eapply Qlt_le_trans; eauto).
  destruct (binade_spec x Hx) as [Lx Ux]. destruct (binade_spec y Hy) as [Ly Uy].
  destruct (Z_lt_le_dec (binade y) (binade x)) as [Hlt|Hle].
  - exfalso. assert (H : 2 ^ (binade y + 1) <= 2 ^ binade x)
      by (apply pow2_le; lia).
    assert (y < x) by (eapply Qlt_le_trans; [exact Uy|];
                       eapply Qle_trans; [exact H | exact Lx]).
    eapply Qlt_irrefl, Qlt_le_trans; eauto.
  - destruct (Z.eq_dec (binade x) (binade y)) as [E|N].
    + unfold fl_pos. rewrite E.
      apply Qmult_le_compat_r; [|apply Qlt_le_weak, pow2_pos].
      rewrite <- Zle_Qle. apply py_round_mono.
      apply Qmult_le_compat_r; [exact Hxy | apply Qlt_le_weak, pow2_pos].
    + destruct (fl_pos_range x Hx) as [_ Rx].
      destruct (fl_pos_range y Hy) as [Ry _].
      eapply Qle_trans; [exact Rx|]. eapply Qle_trans; [|exact Ry].
      apply pow2_le. lia.
Qed.

Lemma Qnum_sign (q : Q) :
  (0 < q <-> (0 < Qnum q)%Z) /\ (q == 0 <-> Qnum q = 0%Z)
  /\ (q < 0 <-> (Qnum q < 0)%Z).
Proof.
  destruct q as [n d]. unfold Qlt, Qeq. cbn [Qnum Qden]. lia.
Qed.

Lemma fl_Qeq (x y : Q) : x == y -> fl x = fl y.
Proof. intros H. unfold fl. now rewrite (Qred_complete x y H). Qed.

Lemma fl_positive (x : Q) : 0 < x -> fl x == fl_pos (Qred x).
Proof.
  intros Hx. unfold fl. rewrite Qred_correct.
  assert (H : 0 < Qred x) by now rewrite Qred_correct.
  apply Qnum_sign in H. destruct (Qnum (Qred x)); try lia. reflexivity.
Qed.

Lemma fl_negative (x : Q) : x < 0 -> fl x == - fl_pos (- Qred x).
Proof.
  intros Hx. unfold fl. rewrite Qred_correct.
  assert (H : Qred x < 0) by now rewrite Qred_correct.
  apply Qnum_sign in H. destruct (Qnum (Qred x)); try lia. reflexivity.
Qed.

Lemma fl_zero (x : Q) : x == 0 -> fl x == 0.
Proof. intros H. now rewrite (fl_Qeq x 0 H). Qed.

Lemma fl_mono (x y : Q) : x <= y -> fl x <= fl y.
Proof.
  intros H.
  destruct (Q_dec x 0) as [[Hx|Hx]|Hx]; destruct (Q_dec y 0) as [[Hy|Hy]|Hy].
  - rewrite (fl_negative x Hx), (fl_negative y Hy).
    apply Qopp_le_compat. apply fl_pos_mono.
    + rewrite Qred_correct. lra.
    + rewrite !Qred_correct. lra.
  - rewrite (fl_negative x Hx), (fl_positive y Hy).
    assert (0 < fl_pos (- Qred x))
      by (apply fl_pos_positive; rewrite Qred_correct; lra).
    assert (0 < fl_pos (Qred y))
      by (apply fl_pos_positive; rewrite Qred_correct; lra).
    lra.
  - rewrite (fl_negative x Hx), (fl_zero y Hy).
    assert (0 < fl_pos (- Qred x))
      by (apply fl_pos_positive; rewrite Qred_correct; lra).
    lra.
  - lra.
  - rewrite (fl_positive x Hx), (fl_positive y Hy).
    apply fl_pos_mono; rewrite ?Qred_correct; lra.
  - lra.
  - lra.
  - rewrite (fl_zero x Hx), (fl_positive y Hy).
    assert (0 < fl_pos (Qred y))
      by (apply fl_pos_positive; rewrite Qred_correct; lra).
    lra.
  - rewrite (fl_zero x Hx), (fl_zero y Hy). lra.
Qed.

Lemma fl_near (x : Q) : Qabs (fl x - x) <= Qabs x * 2 ^ (- 53).
Proof.
  destruct (Q_dec x 0) as [[Hx|Hx]|Hx].
  - rewrite (fl_negative x Hx).
    pose proof (Qred_correct x) as Er. set (r := Qred x) in *. clearbody r.
    assert (Hp : 0 < - r) by lra.
    pose proof (fl_pos_near _ Hp) as H.
    set (a := fl_pos (- r)) in *. clearbody a.
    rewrite <- Er. rewrite (Qabs_neg r) by lra.
    setoid_replace (- a - r) with (- (a - - r)) by ring.
    now rewrite Qabs_opp.
  - rewrite (fl_positive x Hx).
    pose proof (Qred_correct x) as Er. set (r := Qred x) in *. clearbody r.
    assert (Hp : 0 < r) by lra.
    pose proof (fl_pos_near _ Hp) as H.
    set (a := fl_pos r) in *. clearbody a.
    rewrite <- Er. now rewrite (Qabs_pos r) by lra.
  - rewrite (fl_zero x Hx), Hx. simpl. discriminate.
Qed.


Lemma binade_below (x : Q) (k : Z) : 0 < x -> x < 2 ^ k -> (binade x < k)%Z.
Proof.
  intros Hx Hk. destruct (binade_spec x Hx) as [Lo _].
  destruct (Z_lt_le_dec (binade x) k) as [H|H]; [exact H|].
  exfalso. pose proof (pow2_le _ _ H). lra.
Qed.

(** Integers below [2 ^ 53] are floats. *)
Lemma fl_int (n : Z) : (0 <= n < 2 ^ 53)%Z -> fl (inject_Z n) == inject_Z n.
Proof.
  intros [H0 H53]. destruct (Z.eq_dec n 0) as [->|Hn]; [reflexivity|].
  assert (Hx : 0 < inject_Z n) by (unfold Qlt; simpl; lia).
  rewrite (fl_positive _ Hx).
  pose proof (Qred_correct (inject_Z n)) as Er.
  set (r := Qred (inject_Z n)) in *. clearbody r.
  assert (Hr : 0 < r) by lra.
  assert (Hb : (binade r < 53)%Z).
  { apply binade_below; [exact Hr|]. rewrite Er, pow2_Z by lia.
    now rewrite <- Zlt_Qlt. }
  unfold fl_pos. set (e := (binade r - 52)%Z).
  assert (He : (0 <= - e)%Z) by lia.
  assert (Es : r * 2 ^ (- e) == inject_Z (n * 2 ^ (- e))).
  { rewrite Er, pow2_Z by lia. now rewrite inject_Z_mult. }
  rewrite (py_round_Qeq _ _ Es), py_round_Z, inject_Z_mult.
  rewrite <- pow2_Z by lia. rewrite <- Qmult_assoc, pow2_opp. ring.
Qed.

Lemma trunc_small (x : Q) : - (1) < x -> x < 1 -> trunc x = 0%Z.
Proof.
  destruct x as [n d]. unfold Qlt, trunc. cbn. intros H1 H2.
  apply Z.quot_small_iff; [lia|]. rewrite (Z.abs_eq (Zpos d)) by lia. lia.
Qed.







Lemma fl_pos_Qeq (a b : Q) : 0 < a -> a == b -> fl_pos a == fl_pos b.
Proof.
  intros Ha E. apply Qle_antisym; apply fl_pos_mono; lra.
Qed.

Lemma fl_opp (x : Q) : fl (- x) == - fl x.
Proof.
  destruct (Q_dec x 0) as [[Hx|Hx]|Hx].
  - assert (Hn : 0 < - x) by lra.
    rewrite (fl_positive _ Hn), (fl_negative _ Hx).
    rewrite Qopp_involutive. apply fl_pos_Qeq.
    + rewrite Qred_correct. exact Hn.
    + now rewrite !Qred_correct.
  - assert (Hn : - x < 0) by lra.
    rewrite (fl_negative _ Hn), (fl_positive _ Hx).
    apply Qopp_comp, fl_pos_Qeq.
    + rewrite Qred_correct. lra.
    + rewrite !Qred_correct. ring.
  - rewrite (fl_zero x Hx), (fl_zero (- x)) by lra. reflexivity.
Qed.

Lemma trunc_floor (y : Q) (k : Z) :
  (0 <= k)%Z -> inject_Z k <= y -> y < inject_Z (k + 1) -> trunc y = k.
Proof.
  destruct y as [n d]. unfold Qle, Qlt, trunc. cbn [Qnum Qden inject_Z].
  intros Hk H1 H2.
  rewrite Z.quot_div_nonneg by nia.
  symmetry. apply Z.div_unique with (r := (n - k * Zpos d)%Z); nia.
Qed.

Lemma trunc_opp (y : Q) : trunc (- y) = (- trunc y)%Z.
Proof.
  destruct y as [n d]. unfold trunc. cbn [Qnum Qden Qopp].
  apply Z.quot_opp_l. lia.
Qed.

Lemma trunc_Qeq (y z : Q) : y == z -> trunc y = trunc z.
Proof.
  destruct y as [n d], z as [m c]. unfold Qeq, trunc. cbn [Qnum Qden].
  intros E.
  rewrite <- (Z.quot_mul_cancel_r n (Zpos d) (Zpos c)) by lia.
  rewrite <- (Z.quot_mul_cancel_r m (Zpos c) (Zpos d)) by lia.
  f_equal; lia.
Qed.

(** Below [2 ^ 53] microseconds the whole seconds of the [float] are the
    whole seconds of the exact quotient. *)
Lemma total_seconds_nonneg (microseconds : Z) :
  (0 <= microseconds < 2 ^ 53)%Z ->
  trunc (fl (microseconds # 1000000)) = (microseconds / 1000000)%Z.
Proof.
  intros [H0 H53].
  set (k := (microseconds / 1000000)%Z).
  pose proof (Z.div_mod microseconds 1000000 ltac:(lia)) as Hdm.
  pose proof (Z.mod_pos_bound microseconds 1000000 ltac:(lia)) as Hm.
  fold k in Hdm.
  assert (Hk : (0 <= k)%Z) by (apply Z.div_pos; lia).
  assert (Lo : inject_Z k <= microseconds # 1000000).
  { unfold Qle. cbn [Qnum Qden inject_Z]. lia. }
  assert (Hi : microseconds # 1000000 <= inject_Z (k + 1) - (1 # 1000000)).
  { unfold Qle, Qminus, Qplus, Qopp. cbn [Qnum Qden inject_Z]. lia. }
  assert (Up : microseconds # 1000000 < 9007199254740992 # 1000000).
  { unfold Qlt. cbn [Qnum Qden]. change (2 ^ 53)%Z with 9007199254740992%Z in H53.
    lia. }
  assert (X0 : 0 <= microseconds # 1000000).
  { unfold Qle. cbn [Qnum Qden]. lia. }
  apply trunc_floor; [exact Hk | |].
  - apply Qle_trans with (fl (inject_Z k)).
    + rewrite fl_int; [apply Qle_refl|].
      split; [exact Hk|]. unfold k.
      apply Z.le_lt_trans with microseconds; [|exact H53].
      apply Z.div_le_upper_bound; lia.
    + now apply fl_mono.
  - pose proof (fl_near (microseconds # 1000000)) as F.
    rewrite (Qabs_pos _ X0) in F.
    apply Qabs_Qle_condition in F. destruct F as [_ F].
    change (2 ^ (-53)) with (1 # 9007199254740992) in F.
    set (x := microseconds # 1000000) in *. clearbody x.
    set (y := fl x) in *. clearbody y.
    set (c := inject_Z (k + 1)) in *. clearbody c.
    lra.
Qed.

Lemma total_seconds_exact (microseconds : Z) :
  (- 2 ^ 53 < microseconds < 2 ^ 53)%Z ->
  trunc (fl (microseconds # 1000000)) = Z.quot microseconds 1000000.
Proof.
  intros H. destruct (Z_le_gt_dec 0 microseconds) as [Hs|Hs].
  - rewrite total_seconds_nonneg by lia. symmetry.
    apply Z.quot_div_nonneg; lia.
  - assert (E : microseconds # 1000000 == - ((- microseconds) # 1000000)).
    { unfold Qeq, Qopp. cbn [Qnum Qden]. lia. }
    rewrite (fl_Qeq _ _ E), (trunc_Qeq _ _ (fl_opp _)), trunc_opp.
    rewrite total_seconds_nonneg by lia.
    rewrite <- Z.quot_div_nonneg by lia.
    rewrite Z.quot_opp_l by lia. lia.
Qed.

(** Less than a second either way is no second at all. *)
Lemma total_seconds_small (microseconds : Z) :
  (-1000000 < microseconds < 1000000)%Z ->
  trunc (fl (microseconds # 1000000)) = 0%Z.
Proof.
  intros H. apply trunc_small.
  - apply Qlt_le_trans with (fl (-999999 # 1000000)).
    + vm_compute. reflexivity.
    + apply fl_mono. unfold Qle. cbn [Qnum Qden]. lia.
  - apply Qle_lt_trans with (fl (999999 # 1000000)).
    + apply fl_mono. unfold Qle. cbn [Qnum Qden]. lia.
    + vm_compute. reflexivity.
Qed.

End FloatFacts.

(** ** The renderer *)

Section RenderFacts.
Import main.

(** The four buckets of [time_ago] on the specification's examples. *)
Lemma time_ago_examples :
  time_ago_of 45 = u "45 seconds ago"
  /\ time_ago_of 90 = u "1 minute ago"
  /\ time_ago_of 3661 = u "1 hour ago"
  /\ time_ago_of 90000 = u "1 day ago"
  /\ time_ago_of 120 = u "2 minutes ago"
  /\ time_ago_of 7200 = u "2 hours ago"
  /\ time_ago_of 172800 = u "2 days ago".
Proof. repeat split; reflexivity. Qed.

(** Minutes, hours and days take the singular at one unit and the
    plural elsewhere. *)
Lemma time_ago_minutes (seconds_diff : Z) :
  60 <= seconds_diff < 3600 ->
  time_ago_of seconds_diff
  = str_of_int (seconds_diff / 60)
      ++ (if seconds_diff <? 120 then u " minute ago" else u " minutes ago").
Proof.
  intros H. unfold time_ago_of, plural.
  destruct (Z.ltb_spec seconds_diff 60); [lia|].
  destruct (Z.ltb_spec seconds_diff 3600); [|lia].
  destruct (Z.ltb_spec seconds_diff 120).
  - assert (seconds_diff / 60 = 1) as ->
        by (symmetry; apply Z.div_unique with (r := seconds_diff - 60); lia).
    reflexivity.
  - assert (2 <= seconds_diff / 60) by (apply Z.div_le_lower_bound; lia).
    destruct (Z.eqb_spec (seconds_diff / 60) 1); [lia | reflexivity].
Qed.

(** C5.  One second of age is rendered with the plural: the seconds
    bucket has no singular, unlike the three other buckets. *)
Theorem time_ago_one_second :
  time_ago_of 1 = u "1 seconds ago"
  /\ time_ago 1800000001000000 1800000000000000 = u "1 seconds ago"
  /\ time_ago_of 60 = u "1 minute ago"
  /\ time_ago_of 3600 = u "1 hour ago"
  /\ time_ago_of 86400 = u "1 day ago".
Proof. repeat split; vm_compute; reflexivity. Qed.

(** *** The star rating *)

Section Rating.
Local Open Scope Q_scope.









End Rating.


End RenderFacts.



(** The quotient is a [float] before it is rounded to one decimal: 201
    positive out of 2000 is 10.05 exactly, a tie between 10.0 and 10.1,
    but the quotient is the [float] just above 10.05 and the percentage is
    10.1, which gives one star; 599 out of 2000 gives 29.9 where the exact
    29.95 would be a tie. *)
Example reputation_percentage_of_float :
  main.reputation_percentage 201 2000 = fl (101 # 10)
  /\ main.star_count (main.reputation_percentage 201 2000) = 1
  /\ main.reputation_percentage 599 2000 = fl (299 # 10)
  /\ main.star_count (main.reputation_percentage 599 2000) = 1.
Proof. repeat split; vm_compute; reflexivity. Qed.

(** ** The brand matcher *)

Section MatcherFacts.
Context {rt : Runtime}.
Import main.

Lemma partial_match_first (brand_lower : str) (pre post : alias_index)
    (alias : str) (data : route) :
  forallb (unmatched brand_lower) pre = true ->
  either_rule brand_lower alias = true ->
  partial_match brand_lower (pre ++ (alias, data) :: post) = Some data.
Proof.
  unfold unmatched, either_rule.
  induction pre as [|[a d] pre IH]; simpl; intros Hpre Hal.
  - apply orb_true_iff in Hal as [-> | ->]; [reflexivity|].
    now destruct (split_rule brand_lower alias).
  - apply andb_true_iff in Hpre as [Ha Hpre].
    apply negb_true_iff, orb_false_iff in Ha as [-> ->].
    now apply IH.
Qed.

Lemma partial_match_none (brand_lower : str) (items : alias_index) :
  forallb (unmatched brand_lower) items = true ->
  partial_match brand_lower items = None.
Proof.
  unfold unmatched, either_rule.
  induction items as [|[a d] items IH]; simpl; [reflexivity|].
  intros H. apply andb_true_iff in H as [Ha H].
  apply negb_true_iff, orb_false_iff in Ha as [-> ->].
  now apply IH.
Qed.

Lemma partial_match_some (brand_lower : str) (items : alias_index)
    (data : route) :
  partial_match brand_lower items = Some data ->
  exists pre alias post,
    items = pre ++ (alias, data) :: post
    /\ forallb (unmatched brand_lower) pre = true
    /\ either_rule brand_lower alias = true.
Proof.
  unfold unmatched, either_rule.
  induction items as [|[a d] items IH]; simpl; [discriminate|].
  destruct (split_rule brand_lower a) eqn:Es.
  - intros [= ->]. exists [], a, items. now rewrite Es.
  - destruct (fixed_list_rule brand_lower a) eqn:Ef.
    + intros [= ->]. exists [], a, items. now rewrite Es, Ef.
    + intros H. destruct (IH H) as (pre & alias & post & -> & Hpre & Hal).
      exists ((a, d) :: pre), alias, post. simpl.
      now rewrite Es, Ef.
Qed.

Lemma find_matching_brand_partial (brand_aliases : alias_index)
    (brand_title : str) :
  brand_title <> [] ->
  first_variation brand_aliases (variations (strip (lower brand_title))) = None ->
  _find_matching_brand brand_aliases brand_title
  = partial_match (strip (lower brand_title)) brand_aliases.
Proof.
  intros Hne Hv. unfold _find_matching_brand.
  destruct brand_title as [|c rest]; [contradiction|].
  set (brand_lower := strip (lower (c :: rest))) in *.
  rewrite Hv.
  unfold variations in Hv. cbn [first_variation] in Hv.
  destruct (lookup brand_lower brand_aliases); [discriminate | reflexivity].
Qed.

(** C2, as the code has it.  When the exact and the variant lookups
    fail, the aliases are visited once, in the order of the index, and
    for each alias the split rule and then the fixed-list rule are tried:
    the route is that of the first alias, in index order, that either
    rule matches, and there is no route when no alias matches.  So a
    split-rule match decides the route when no alias before it in the
    index matches either rule. *)
Theorem partial_match_index_order (brand_aliases : alias_index)
    (brand_title : str) :
  brand_title <> [] ->
  first_variation brand_aliases (variations (strip (lower brand_title))) = None ->
  (forall pre alias data post,
      brand_aliases = pre ++ (alias, data) :: post ->
      forallb (unmatched (strip (lower brand_title))) pre = true ->
      either_rule (strip (lower brand_title)) alias = true ->
      _find_matching_brand brand_aliases brand_title = Some data)
  /\ (forall pre alias data post,
        brand_aliases = pre ++ (alias, data) :: post ->
        forallb (unmatched (strip (lower brand_title))) pre = true ->
        split_rule (strip (lower brand_title)) alias = true ->
        _find_matching_brand brand_aliases brand_title = Some data)
  /\ (forall data,
        _find_matching_brand brand_aliases brand_title = Some data ->
        exists pre alias post,
          brand_aliases = pre ++ (alias, data) :: post
          /\ forallb (unmatched (strip (lower brand_title))) pre = true
          /\ either_rule (strip (lower brand_title)) alias = true)
  /\ (forallb (unmatched (strip (lower brand_title))) brand_aliases = true ->
      _find_matching_brand brand_aliases brand_title = None).
Proof.
  intros Hne Hv.
  rewrite (find_matching_brand_partial _ _ Hne Hv).
  split; [|split; [|split]].
  - intros pre alias data post -> Hpre Hal. now apply partial_match_first.
  - intros pre alias data post -> Hpre Hal. apply partial_match_first; auto.
    unfold either_rule. now rewrite Hal.
  - intros data. apply partial_match_some.
  - apply partial_match_none.
Qed.

End MatcherFacts.

Lemma partial_match_index_order_witness :
  let brand_aliases :=
    main._create_alias_mapping (rt := Sample.runtime)
      [ (u "Cole Buxton",
         {| main.config_channel_id := 10;
            main.config_aliases := [u "Cole Buxton"; u "CB"] |}) ] in
  main._find_matching_brand (rt := Sample.runtime) brand_aliases
    (u "Cole Buxton x Nike")
  = Some {| main.main_brand := u "Cole Buxton"; main.channel_id := 10 |}.
Proof.
  intros brand_aliases.
  refine (proj1 (proj2
    (partial_match_index_order (rt := Sample.runtime) brand_aliases
       (u "Cole Buxton x Nike") _ _))
    [] (u "cole buxton") _
    [ (u "cb", {| main.main_brand := u "Cole Buxton"; main.channel_id := 10 |}) ]
    _ _ _);
    try reflexivity; discriminate.
Defined.

(** C2, against the claim.  With the aliases "palace" and "nike"
    registered in this order, the title "Palace Skateboards x Nike" passes
    the exact and the variant lookups; the split rule matches the alias
    "nike", yet the route is Palace's, found by the fixed-list rule when the
    alias "palace" is visited first. *)
Lemma fixed_list_rule_preempts_split_rule :
  let brand_aliases :=
    main._create_alias_mapping (rt := Sample.runtime)
      [ (u "Palace",
         {| main.config_channel_id := 1; main.config_aliases := [u "Palace"] |});
        (u "Nike",
         {| main.config_channel_id := 2; main.config_aliases := [u "Nike"] |}) ] in
  let brand_lower := u "palace skateboards x nike" in
  main.first_variation brand_aliases (main.variations brand_lower) = None
  /\ main.split_rule brand_lower (u "nike") = true
  /\ lookup (u "nike") brand_aliases
     = Some {| main.main_brand := u "Nike"; main.channel_id := 2 |}
  /\ main.split_rule brand_lower (u "palace") = false
  /\ main.fixed_list_rule brand_lower (u "palace") = true
  /\ main._find_matching_brand (rt := Sample.runtime) brand_aliases
       (u "Palace Skateboards x Nike")
     = Some {| main.main_brand := u "Palace"; main.channel_id := 1 |}.
Proof. repeat split; vm_compute; reflexivity. Qed.

(** ** The enrichment client *)

Section EnrichmentFacts.
Import main.

Variable http : nat -> request -> response.

Lemma emit_extend (e : event) (s : bot) : emit e s = extend s [e].
Proof. reflexivity. Qed.

Lemma extend_extend (s : bot) (a b : list event) :
  extend (extend s a) b = extend s (a ++ b).
Proof. unfold extend. simpl. now rewrite app_assoc. Qed.

Lemma extend_nil (s : bot) : extend s [] = s.
Proof. destruct s. unfold extend. simpl. now rewrite app_nil_r. Qed.

(** *** One pass of the retry loop, by the answer of the endpoint *)

Lemma retry_rate_limited r on_success attempt rest s body :
  http (List.length (trace s)) r = Response 429 body ->
  retry http r on_success (attempt :: rest) s
  = retry http r on_success rest
      (emit (EvSleep (2 ^ attempt)) (emit (EvGet r) s)).
Proof.
  intros H. cbn [retry]. unfold mbind at 1.
  unfold attempt_once, try_except, mbind at 1, requests_get.
  rewrite H. reflexivity.
Qed.

Lemma retry_http_error r on_success attempt rest s status body :
  http (List.length (trace s)) r = Response status body ->
  is_error status = true -> status <> 429 ->
  retry http r on_success (attempt :: rest) s = (Ok VNone, emit (EvGet r) s).
Proof.
  intros H He Hs. cbn [retry]. unfold mbind at 1.
  unfold attempt_once, try_except, mbind at 1, requests_get.
  rewrite H. cbn [fst snd]. unfold mbind, raise_for_status. rewrite He.
  unfold raise. destruct (Z.eqb_spec status 429); [contradiction|].
  reflexivity.
Qed.

Lemma retry_transport_failure r on_success attempt rest s :
  http (List.length (trace s)) r = TransportFailure ->
  retry http r on_success (attempt :: rest) s
  = retry http r on_success rest
      (emit (EvSleep (2 ^ attempt)) (emit (EvGet r) s)).
Proof.
  intros H. cbn [retry]. unfold mbind at 1.
  unfold attempt_once, try_except, mbind at 1, requests_get.
  rewrite H. reflexivity.
Qed.

Lemma retry_success r on_success attempt rest s status body data :
  http (List.length (trace s)) r = Response status body ->
  is_error status = false ->
  on_success body = Ok data ->
  retry http r on_success (attempt :: rest) s = (Ok data, emit (EvGet r) s).
Proof.
  intros H He Hd. cbn [retry]. unfold mbind at 1.
  unfold attempt_once, try_except, mbind at 1, requests_get.
  rewrite H. cbn [fst snd]. unfold mbind, raise_for_status. rewrite He.
  unfold ret, lift. rewrite Hd. reflexivity.
Qed.

Lemma retry_attribute_error r on_success attempt rest s status body :
  http (List.length (trace s)) r = Response status body ->
  is_error status = false ->
  on_success body = Raise AttributeError ->
  retry http r on_success (attempt :: rest) s
  = (Raise AttributeError, emit (EvGet r) s).
Proof.
  intros H He Hd. cbn [retry]. unfold mbind at 1.
  unfold attempt_once, try_except, mbind at 1, requests_get.
  rewrite H. cbn [fst snd]. unfold mbind, raise_for_status. rewrite He.
  unfold ret, lift. rewrite Hd. reflexivity.
Qed.

(** *** The whole loop *)

Lemma retry_outcome r on_success attempts :
  (forall body, (exists data, on_success body = Ok data)
                \/ on_success body = Raise AttributeError) ->
  forall s, exists res evs,
    retry http r on_success attempts s = (res, extend s evs)
    /\ forallb is_http evs = true
    /\ (gets evs <= List.length attempts)%nat
    /\ ((exists data, res = Ok data) \/ res = Raise AttributeError).
Proof.
  intros Hf. induction attempts as [|attempt rest IH]; intros s.
  - exists (Ok VNone), []. rewrite extend_nil. simpl. eauto 6.
  - destruct (http (List.length (trace s)) r) as [status body|] eqn:H.
    + destruct (is_error status) eqn:He.
      * destruct (Z.eq_dec status 429) as [->|Hs].
        -- rewrite (retry_rate_limited _ _ attempt rest _ _ H).
           destruct (IH (emit (EvSleep (2 ^ attempt)) (emit (EvGet r) s)))
             as (res & evs & E & Hq & Hg & Hr).
           exists res, ([EvGet r; EvSleep (2 ^ attempt)] ++ evs).
           rewrite E, !emit_extend, !extend_extend.
           repeat split; auto. unfold gets in *. simpl. lia.
        -- rewrite (retry_http_error _ _ attempt rest _ _ _ H He Hs).
           exists (Ok VNone), [EvGet r]. rewrite emit_extend.
           repeat split; eauto. unfold gets. simpl. lia.
      * destruct (Hf body) as [[data Hd]|Hd].
        -- rewrite (retry_success _ _ attempt rest _ _ _ _ H He Hd).
           exists (Ok data), [EvGet r]. rewrite emit_extend.
           repeat split; eauto. unfold gets. simpl. lia.
        -- rewrite (retry_attribute_error _ _ attempt rest _ _ _ H He Hd).
           exists (Raise AttributeError), [EvGet r]. rewrite emit_extend.
           repeat split; eauto. unfold gets. simpl. lia.
    + rewrite (retry_transport_failure _ _ attempt rest _ H).
      destruct (IH (emit (EvSleep (2 ^ attempt)) (emit (EvGet r) s)))
        as (res & evs & E & Hq & Hg & Hr).
      exists res, ([EvGet r; EvSleep (2 ^ attempt)] ++ evs).
      rewrite E, !emit_extend, !extend_extend.
      repeat split; auto. unfold gets in *. simpl. lia.
Qed.

Lemma retry_never_raises r on_success attempts :
  (forall t status body,
      http t r = Response status body -> is_error status = false ->
      exists data, on_success body = Ok data) ->
  forall s, exists data evs,
    retry http r on_success attempts s = (Ok data, extend s evs)
    /\ forallb is_http evs = true
    /\ (gets evs <= List.length attempts)%nat.
Proof.
  intros Hf. induction attempts as [|attempt rest IH]; intros s.
  - exists VNone, []. rewrite extend_nil. simpl. auto.
  - destruct (http (List.length (trace s)) r) as [status body|] eqn:H.
    + destruct (is_error status) eqn:He.
      * destruct (Z.eq_dec status 429) as [->|Hs].
        -- rewrite (retry_rate_limited _ _ attempt rest _ _ H).
           destruct (IH (emit (EvSleep (2 ^ attempt)) (emit (EvGet r) s)))
             as (data & evs & E & Hq & Hg).
           exists data, ([EvGet r; EvSleep (2 ^ attempt)] ++ evs).
           rewrite E, !emit_extend, !extend_extend.
           repeat split; auto. unfold gets in *. simpl. lia.
        -- rewrite (retry_http_error _ _ attempt rest _ _ _ H He Hs).
           exists VNone, [EvGet r]. rewrite emit_extend.
           repeat split; auto. unfold gets. simpl. lia.
      * destruct (Hf _ _ _ H He) as [data Hd].
        rewrite (retry_success _ _ attempt rest _ _ _ _ H He Hd).
        exists data, [EvGet r]. rewrite emit_extend.
        repeat split; auto. unfold gets. simpl. lia.
    + rewrite (retry_transport_failure _ _ attempt rest _ H).
      destruct (IH (emit (EvSleep (2 ^ attempt)) (emit (EvGet r) s)))
        as (data & evs & E & Hq & Hg).
      exists data, ([EvGet r; EvSleep (2 ^ attempt)] ++ evs).
      rewrite E, !emit_extend, !extend_extend.
      repeat split; auto. unfold gets in *. simpl. lia.
Qed.

Lemma retry_always_failing r on_success s :
  (forall t, http t r = TransportFailure) ->
  retry http r on_success range3 s
  = (Ok VNone,
     extend s [EvGet r; EvSleep 1; EvGet r; EvSleep 2; EvGet r; EvSleep 4]).
Proof.
  intros H. unfold range3.
  rewrite !retry_transport_failure by apply H.
  cbn [retry]. unfold ret.
  rewrite !emit_extend, !extend_extend. reflexivity.
Qed.

(** C7, as the code has it.  Both fetches make at most 3 requests.  The
    feedback fetch never raises; the description fetch never raises when
    every response without an error status carries a JSON object.  In a
    pass of the loop a response with status 429 and a failure below HTTP
    are each followed by a sleep of [2 ^ attempt] seconds and the next
    pass; any other error status ends the loop at once with [None].  An
    endpoint that always fails below HTTP is asked exactly 3 times, with
    sleeps of 1, 2 and 4 seconds, and the result is [None]. *)
Theorem enrichment_retry_policy :
  (forall user_id s, exists data evs,
      fetch_user_feedback http user_id s = (Ok data, extend s evs)
      /\ (gets evs <= 3)%nat)
  /\ (forall item_id s,
        (forall t status body,
            http t (GetProductByID item_id) = Response status body ->
            is_error status = false ->
            exists d, body = VDict d) ->
        exists data evs,
          fetch_item_description http item_id s = (Ok data, extend s evs)
          /\ (gets evs <= 3)%nat)
  /\ (forall item_id s, exists res evs,
        fetch_item_description http item_id s = (res, extend s evs)
        /\ (gets evs <= 3)%nat)
  /\ (forall r on_success attempt rest s body,
        http (List.length (trace s)) r = Response 429 body ->
        retry http r on_success (attempt :: rest) s
        = retry http r on_success rest
            (emit (EvSleep (2 ^ attempt)) (emit (EvGet r) s)))
  /\ (forall r on_success attempt rest s status body,
        http (List.length (trace s)) r = Response status body ->
        is_error status = true -> status <> 429 ->
        retry http r on_success (attempt :: rest) s
        = (Ok VNone, emit (EvGet r) s))
  /\ (forall r on_success attempt rest s,
        http (List.length (trace s)) r = TransportFailure ->
        retry http r on_success (attempt :: rest) s
        = retry http r on_success rest
            (emit (EvSleep (2 ^ attempt)) (emit (EvGet r) s)))
  /\ (forall user_id s,
        (forall t, http t (GetUserByID user_id) = TransportFailure) ->
        fetch_user_feedback http user_id s
        = (Ok VNone,
           extend s [ EvGet (GetUserByID user_id); EvSleep 1;
                      EvGet (GetUserByID user_id); EvSleep 2;
                      EvGet (GetUserByID user_id); EvSleep 4 ]))
  /\ (forall item_id s,
        (forall t, http t (GetProductByID item_id) = TransportFailure) ->
        fetch_item_description http item_id s
        = (Ok VNone,
           extend s [ EvGet (GetProductByID item_id); EvSleep 1;
                      EvGet (GetProductByID item_id); EvSleep 2;
                      EvGet (GetProductByID item_id); EvSleep 4 ])).
Proof.
  split; [|split; [|split; [|split; [|split; [|split; [|split]]]]]].
  - intros user_id s. unfold fetch_user_feedback.
    destruct (retry_never_raises (GetUserByID user_id)
                (fun feedback_data => Ok feedback_data) range3)
      with (s := s) as (data & evs & E & _ & Hg); eauto.
  - intros item_id s Hbody. unfold fetch_item_description.
    destruct (retry_never_raises (GetProductByID item_id)
                (fun item_data => get item_data (u "description") VNone)
                range3)
      with (s := s) as (data & evs & E & _ & Hg); eauto.
    intros t status body H He.
    destruct (Hbody _ _ _ H He) as [d ->]. simpl. eauto.
  - intros item_id s. unfold fetch_item_description.
    destruct (retry_outcome (GetProductByID item_id)
                (fun item_data => get item_data (u "description") VNone)
                range3) with (s := s) as (res & evs & E & _ & Hg & _).
    + intros body. destruct body; simpl; eauto.
    + eauto.
  - apply retry_rate_limited.
  - apply retry_http_error.
  - apply retry_transport_failure.
  - intros user_id s H. now apply retry_always_failing.
  - intros item_id s H. now apply retry_always_failing.
Qed.

End EnrichmentFacts.

Lemma enrichment_retry_policy_witness :
  main.fetch_user_feedback (fun _ _ => main.TransportFailure) 7 main.initial
  = (Ok VNone,
     {| main.sent_items := [];
        main.trace := [ main.EvGet (main.GetUserByID 7); main.EvSleep 1;
                        main.EvGet (main.GetUserByID 7); main.EvSleep 2;
                        main.EvGet (main.GetUserByID 7); main.EvSleep 4 ] |}).
Proof.
  refine (proj1 (proj2 (proj2 (proj2 (proj2 (proj2 (proj2
    (enrichment_retry_policy (fun _ _ => main.TransportFailure)))))))) 7
    main.initial _).
  intros t. reflexivity.
Defined.

(** C7, against the claim.  The endpoint answers 200 with a JSON array:
    [item_data.get] raises [AttributeError], which neither [except] clause
    of the loop takes, so it reaches the caller after one request. *)
Lemma description_fetch_raises_on_array_body :
  main.fetch_item_description (fun _ _ => main.Response 200 (VList [])) 42
    main.initial
  = (Raise AttributeError,
     {| main.sent_items := [];
        main.trace := [ main.EvGet (main.GetProductByID 42) ] |}).
Proof. reflexivity. Qed.

(** ** The polling orchestrator *)

Section OrchestratorFacts.
Context {rt : Runtime}.
Import main.

Variable http : nat -> request -> response.
Variable get_channel : nat -> Z -> bool.
Variable embed : Type.
Variable channel_send : nat -> Z -> embed -> bool.
Variable build_embed : listing -> value -> value -> nat -> result embed.
Variable brand_aliases : alias_index.

Lemma sends_app item_id a b :
  sends item_id (a ++ b) = (sends item_id a + sends item_id b)%nat.
Proof. unfold sends. now rewrite filter_app, length_app. Qed.

Lemma sends_http item_id evs :
  forallb is_http evs = true -> sends item_id evs = 0%nat.
Proof.
  unfold sends. induction evs as [|e evs IH]; simpl; [reflexivity|].
  intros H. apply andb_true_iff in H as [He H].
  destruct e; simpl in *; try discriminate; auto.
Qed.

Lemma deliveries_le_sends item_id evs :
  (deliveries item_id evs <= sends item_id evs)%nat.
Proof.
  unfold deliveries, sends. induction evs as [|e evs IH]; simpl; [lia|].
  destruct e as [r | secs | ch i [|] | i]; simpl; try exact IH;
    destruct (i =? item_id); simpl; lia.
Qed.

Lemma fetch_user_feedback_effects user s :
  exists data evs,
    fetch_user_feedback http user s = (Ok data, extend s evs)
    /\ forallb is_http evs = true.
Proof.
  unfold fetch_user_feedback.
  destruct (retry_never_raises http (GetUserByID user)
              (fun feedback_data => Ok feedback_data) range3)
    with (s := s) as (data & evs & E & Hq & _); eauto.
Qed.

(** [send_item_to_discord] returns normally whatever happens inside it,
    and tries the channel at most once. *)
Lemma send_item_to_discord_effects channel item user_feedback s :
  exists evs,
    send_item_to_discord http channel_send build_embed
      channel item user_feedback s = (Ok tt, extend s evs)
    /\ (sends (id item) evs <= 1)%nat
    /\ (forall other, other <> id item -> sends other evs = 0%nat).
Proof.
  unfold send_item_to_discord, try_except, fetch_item_description.
  destruct (retry_outcome http (GetProductByID (id item))
              (fun item_data => get item_data (u "description") VNone)
              range3) with (s := s) as (res & evs & E & Hq & _ & Hres).
  { intros body. destruct body; simpl; eauto. }
  unfold mbind at 1. rewrite E.
  destruct Hres as [[data ->] | ->].
  - unfold mbind at 1.
    destruct (build_embed item user_feedback
                (shown_description data (description item))
                (List.length (trace (extend s evs)))) as [e|exc].
    + unfold mbind, send.
      destruct (channel_send (List.length (trace (extend s evs))) channel e).
      * exists (evs ++ [EvSend channel (id item) true; EvUpdater (id item)]).
        rewrite !emit_extend, !extend_extend. simpl app.
        split; [reflexivity|]. split.
        -- rewrite sends_app, (sends_http _ _ Hq). unfold sends. simpl.
           rewrite Z.eqb_refl. simpl. lia.
        -- intros other Ho. rewrite sends_app, (sends_http _ _ Hq).
           unfold sends. simpl.
           destruct (Z.eqb_spec (id item) other); [congruence | reflexivity].
      * exists (evs ++ [EvSend channel (id item) false]).
        unfold ret. rewrite !emit_extend, !extend_extend.
        split; [reflexivity|]. split.
        -- rewrite sends_app, (sends_http _ _ Hq). unfold sends. simpl.
           rewrite Z.eqb_refl. simpl. lia.
        -- intros other Ho. rewrite sends_app, (sends_http _ _ Hq).
           unfold sends. simpl.
           destruct (Z.eqb_spec (id item) other); [congruence | reflexivity].
    + exists evs. unfold ret. split; [reflexivity|].
      split; [rewrite (sends_http _ _ Hq); lia|].
      intros other _. now apply sends_http.
  - exists evs. unfold ret. split; [reflexivity|].
    split; [rewrite (sends_http _ _ Hq); lia|].
    intros other _. now apply sends_http.
Qed.

Local Abbreviation process :=
  (process_item http get_channel channel_send build_embed brand_aliases).
Local Abbreviation polling :=
  (run http get_channel channel_send build_embed brand_aliases).

Lemma not_sent_yet item_id sent :
  existsb (Z.eqb item_id) sent = false -> ~ In item_id sent.
Proof.
  intros H Hin. assert (existsb (Z.eqb item_id) sent = true); [|congruence].
  apply existsb_exists. exists item_id. split; [exact Hin | apply Z.eqb_refl].
Qed.

Lemma already_sent item_id sent :
  In item_id sent -> existsb (Z.eqb item_id) sent = true.
Proof.
  intros Hin. apply existsb_exists. exists item_id.
  split; [exact Hin | apply Z.eqb_refl].
Qed.

(** What one pass of the loop of [check_vinted] does to the bot: nothing,
    or, for an item not yet in the sent list, some events with at most
    one attempt on the channel, after which the item is in the list. *)
Lemma process_item_effects item s :
  exists s',
    process item s = (Ok tt, s')
    /\ (s' = s
        \/ (~ In (id item) (sent_items s)
            /\ exists evs,
                s' = {| sent_items := sent_items s ++ [id item];
                        trace := trace s ++ evs |}
                /\ (sends (id item) evs <= 1)%nat
                /\ (forall other, other <> id item ->
                                  sends other evs = 0%nat))).
Proof.
  unfold process_item.
  destruct (_is_child_size (size_title item)); [exists s; auto|].
  destruct (_find_matching_brand brand_aliases _) as [brand_match|];
    [|exists s; auto].
  destruct (user_id item) as [user|]; [|exists s; auto].
  destruct (existsb (Z.eqb (id item)) (sent_items s)) eqn:Hsent;
    [exists s; auto|].
  destruct (get_channel _ _); simpl negb; cbv iota; [|exists s; auto].
  destruct (fetch_user_feedback_effects user s)
    as (user_feedback & evs1 & E1 & Hq1).
  unfold mbind at 1. rewrite E1.
  destruct (send_item_to_discord_effects
              (channel_id brand_match) item user_feedback (extend s evs1))
    as (evs2 & E2 & Hone & Hother).
  unfold try_except, mbind. rewrite E2. unfold append_sent.
  eexists. split; [reflexivity|]. right.
  split; [now apply not_sent_yet|].
  exists (evs1 ++ evs2). simpl. rewrite app_assoc.
  split; [reflexivity|]. split.
  - rewrite sends_app, (sends_http _ _ Hq1). simpl. exact Hone.
  - intros other Ho. rewrite sends_app, (sends_http _ _ Hq1).
    simpl. now apply Hother.
Qed.

Lemma process_item_skips_sent item s :
  In (id item) (sent_items s) -> process item s = (Ok tt, s).
Proof.
  intros Hin. unfold process_item.
  destruct (_is_child_size (size_title item)); [reflexivity|].
  destruct (_find_matching_brand brand_aliases _); [|reflexivity].
  destruct (user_id item); [|reflexivity].
  now rewrite (already_sent _ _ Hin).
Qed.

(** A property every pass of the loop keeps holds after any run. *)
Lemma polling_invariant (P : bot -> Prop) :
  (forall item s, P s -> P (snd (process item s))) ->
  forall ticks s, P s ->
    fst (polling ticks s) = Ok tt /\ P (snd (polling ticks s)).
Proof.
  intros Hstep.
  assert (each : forall items s, P s ->
             fst (for_each http get_channel channel_send build_embed
                    brand_aliases items s) = Ok tt
             /\ P (snd (for_each http get_channel channel_send build_embed
                          brand_aliases items s))).
  { induction items as [|item items IH]; intros s Hs; [now split|].
    cbn [for_each]. unfold mbind.
    destruct (process_item_effects item s) as (s' & E & _).
    pose proof (Hstep item s Hs) as Hs'. rewrite E in *. simpl in Hs'.
    now apply IH. }
  induction ticks as [|items later IH]; intros s Hs; [now split|].
  cbn [run]. unfold mbind.
  destruct items as [items|]; cbn [check_vinted].
  - destruct (each items s Hs) as [E Hs'].
    destruct (for_each _ _ _ _ _ items s) as [[[]|e] s']; simpl in *;
      [now apply IH | discriminate].
  - unfold ret. now apply IH.
Qed.

Lemma process_item_keeps_marked item s :
  marked s -> marked (snd (process item s)).
Proof.
  intros Hm.
  destruct (process_item_effects item s)
    as (s' & E & [-> | (Hnew & evs & -> & Hone & Hother)]);
    rewrite E; simpl; [exact Hm|].
  intros item_id. simpl. rewrite sends_app.
  destruct (Z.eq_dec item_id (id item)) as [->|Hne].
  - destruct (Hm (id item)) as [H0 | [_ Hin]]; [|contradiction].
    rewrite H0.
    destruct (sends (id item) evs) as [|[|n]] eqn:Hs; [left | right | lia].
    + reflexivity.
    + split; [reflexivity|]. apply in_or_app. right. now left.
  - rewrite (Hother _ Hne), Nat.add_0_r.
    destruct (Hm item_id) as [H0 | [H1 Hin]]; [now left | right].
    split; [exact H1|]. apply in_or_app. now left.
Qed.

Lemma process_item_keeps_sent item_id item s :
  In item_id (sent_items s) ->
  In item_id (sent_items (snd (process item s)))
  /\ sends item_id (trace (snd (process item s))) = sends item_id (trace s).
Proof.
  intros Hin.
  destruct (process_item_effects item s)
    as (s' & E & [-> | (Hnew & evs & -> & Hone & Hother)]);
    rewrite E; simpl; [now split|].
  assert (Hne : item_id <> id item) by (intros ->; contradiction).
  split; [apply in_or_app; now left|].
  rewrite sends_app, (Hother _ Hne). lia.
Qed.

(** C6.  An item whose id is in the sent list is passed over with no
    request, no rendering and no send; the id stays in the list through
    every later tick, during which the channel is never tried for it
    again; and over a whole run from the start at most one notification
    is delivered per id. *)
Theorem dedup_at_most_one_notification :
  (forall item s,
      In (id item) (sent_items s) -> process item s = (Ok tt, s))
  /\ (forall ticks s item_id,
        In item_id (sent_items s) ->
        In item_id (sent_items (snd (polling ticks s)))
        /\ sends item_id (trace (snd (polling ticks s)))
           = sends item_id (trace s))
  /\ (forall ticks item_id,
        (sends item_id (trace (snd (polling ticks initial))) <= 1)%nat
        /\ (deliveries item_id (trace (snd (polling ticks initial))) <= 1)%nat).
Proof.
  split; [|split].
  - apply process_item_skips_sent.
  - intros ticks s item_id Hin.
    apply (polling_invariant
             (fun s' => In item_id (sent_items s')
                        /\ sends item_id (trace s') = sends item_id (trace s))).
    + intros item s' [Hin' Hs'].
      destruct (process_item_keeps_sent item_id item s' Hin') as [H1 H2].
      split; [exact H1 | congruence].
    + now split.
  - intros ticks item_id.
    assert (Hm : marked (snd (polling ticks initial))).
    { apply (polling_invariant marked).
      - intros item s. apply process_item_keeps_marked.
      - intros i. now left. }
    assert (Hs : (sends item_id (trace (snd (polling ticks initial))) <= 1)%nat)
      by (destruct (Hm item_id) as [-> | [-> _]]; lia).
    split; [exact Hs|].
    pose proof (deliveries_le_sends item_id
                  (trace (snd (polling ticks initial)))). lia.
Qed.

End OrchestratorFacts.

(** *** A run in which the channel refuses every message *)

Lemma dedup_at_most_one_notification_witness :
  let item :=
    {| main.id := 42; main.title := u "Tri-Ferg tee";
       main.brand_title := u "Palace"; main.size_title := u "M";
       main.user_id := Some 7; main.description := VStr (u "Worn twice");
       main.raw_data := [] |} in
  let s := {| main.sent_items := [42]; main.trace := [] |} in
  main.process_item (rt := Sample.runtime)
    (fun _ _ => main.Response 200 (VDict [])) (fun _ _ => true)
    (fun _ _ (_ : unit) => true) (fun _ _ _ _ => Ok tt)
    (main._create_alias_mapping (rt := Sample.runtime)
       [ (u "Palace",
          {| main.config_channel_id := 1;
             main.config_aliases := [u "Palace"] |}) ])
    item s
  = (Ok tt, s).
Proof.
  intros item s.
  refine (proj1 (dedup_at_most_one_notification (rt := Sample.runtime)
                   _ _ unit _ _ _) item s _).
  simpl. now left.
Defined.

(** C1.  The channel raises on every send.  The item is looked up, the
    send fails inside [send_item_to_discord], which catches the exception
    itself, and line 387 appends the id to the sent list; at the next tick
    the item is passed over, so the notification is never retried. *)
Theorem failed_send_is_marked_sent :
  let item :=
    {| main.id := 42; main.title := u "Tri-Ferg tee";
       main.brand_title := u "Palace"; main.size_title := u "M";
       main.user_id := Some 7; main.description := VStr (u "Worn twice");
       main.raw_data := [] |} in
  let polling :=
    main.run (rt := Sample.runtime)
      (fun _ _ => main.Response 200 (VDict [])) (fun _ _ => true)
      (fun _ _ (_ : unit) => false) (fun _ _ _ _ => Ok tt)
      (main._create_alias_mapping (rt := Sample.runtime)
         [ (u "Palace",
            {| main.config_channel_id := 1;
               main.config_aliases := [u "Palace"] |}) ]) in
  let after :=
    {| main.sent_items := [42];
       main.trace := [ main.EvGet (main.GetUserByID 7);
                       main.EvGet (main.GetProductByID 42);
                       main.EvSend 1 42 false ] |} in
  polling [Some [item]] main.initial = (Ok tt, after)
  /\ polling [Some [item]; Some [item]; Some [item]] main.initial
     = (Ok tt, after)
  /\ main.deliveries 42 (main.trace after) = 0%nat.
Proof. repeat split; vm_compute; reflexivity. Qed.

(* ================================================================= *)
(** * Part III: further properties of the code *)
(* ================================================================= *)

(** ** Strings and dictionaries *)

Lemma lstrip_length (s : str) : (List.length (lstrip s) <= List.length s)%nat.
Proof.
  induction s as [|c s IH]; simpl; [lia|].
  destruct (isspace c); simpl; lia.
Qed.

Lemma lstrip_head (c : N) (s : str) :
  lstrip (c :: s) = c :: s -> isspace c = false.
Proof.
  simpl. destruct (isspace c); [|reflexivity].
  intros H. pose proof (lstrip_length s) as L. rewrite H in L. simpl in L. lia.
Qed.

Lemma lstrip_idem (s : str) : lstrip (lstrip s) = lstrip s.
Proof.
  induction s as [|c s IH]; simpl; [reflexivity|].
  destruct (isspace c) eqn:E; [exact IH|]. simpl. now rewrite E.
Qed.

Lemma lstrip_suffix (s : str) : exists pre, s = pre ++ lstrip s.
Proof.
  induction s as [|c s [pre IH]]; simpl; [now exists []|].
  destruct (isspace c); [|now exists []].
  exists (c :: pre). simpl. now rewrite <- IH.
Qed.

Lemma strip_idem (s : str) : strip (strip s) = strip s.
Proof.
  unfold strip.
  set (t := lstrip s). set (w := lstrip (rev t)).
  assert (A : lstrip (rev w) = rev w).
  { destruct (lstrip_suffix (rev t)) as [pre Hpre]. fold w in Hpre.
    assert (Ht : t = rev w ++ rev pre)
      by (rewrite <- rev_app_distr, <- Hpre; now rewrite rev_involutive).
    destruct (rev w) as [|c x] eqn:Ew; [reflexivity|].
    assert (Hc : isspace c = false).
    { apply (lstrip_head c (x ++ rev pre)). simpl in Ht. rewrite <- Ht.
      apply lstrip_idem. }
    simpl. now rewrite Hc. }
  rewrite A, rev_involutive. unfold w. now rewrite lstrip_idem.
Qed.

Lemma starts_with_prefix (p s : str) :
  starts_with p s = true <-> exists post, s = p ++ post.
Proof.
  revert s. induction p as [|a p IH]; intros s; simpl.
  - split; [intros _; now exists s | reflexivity].
  - destruct s as [|b s].
    + split; [discriminate | intros [post H]; discriminate].
    + rewrite andb_true_iff, N.eqb_eq, IH. split.
      * intros [-> [post ->]]. now exists post.
      * intros [post [= -> ->]]. split; [reflexivity | now exists post].
Qed.

(** [contains] is the substring test. *)
Lemma contains_substring (sub s : str) :
  contains sub s = true <-> exists pre post, s = pre ++ sub ++ post.
Proof.
  induction s as [|c s IH].
  - simpl. rewrite orb_false_r, starts_with_prefix. split.
    + intros [post H]. now exists [], post.
    + intros (pre & post & H). destruct pre; [now exists post|discriminate].
  - cbn [contains]. rewrite orb_true_iff, starts_with_prefix, IH. split.
    + intros [[post H] | (pre & post & ->)].
      * now exists [], post.
      * now exists (c :: pre), post.
    + intros (pre & post & H). destruct pre as [|a pre].
      * left. now exists post.
      * right. injection H as _ ->. now exists pre, post.
Qed.

Lemma lookup_dict_set_same {A} (k : str) (v : A) (d : list (str * A)) :
  lookup k (dict_set k v d) = Some v.
Proof.
  induction d as [|[k' v'] d IH]; simpl.
  - now rewrite str_eqb_refl.
  - destruct (str_eqb k' k) eqn:E; simpl; rewrite E; [reflexivity | exact IH].
Qed.

Lemma lookup_dict_set_other {A} (k k' : str) (v : A) (d : list (str * A)) :
  k' <> k -> lookup k' (dict_set k v d) = lookup k' d.
Proof.
  intros Hne. induction d as [|[k0 v0] d IH]; simpl.
  - destruct (str_eqb k k') eqn:E; [|reflexivity].
    apply str_eqb_eq in E. congruence.
  - destruct (str_eqb k0 k) eqn:E; simpl.
    + apply str_eqb_eq in E. subst k0.
      destruct (str_eqb k k') eqn:E'; [|reflexivity].
      apply str_eqb_eq in E'. congruence.
    + now rewrite IH.
Qed.

Lemma dict_set_keys {A} (k : str) (v : A) (d : list (str * A)) :
  NoDup (map fst d) ->
  NoDup (map fst (dict_set k v d))
  /\ (forall k', In k' (map fst (dict_set k v d)) <-> k' = k \/ In k' (map fst d)).
Proof.
  induction d as [|[k0 v0] d IH]; simpl; intros Hnd.
  - split; [repeat constructor; auto|]. intros k'. split.
    + intros [<- | []]. now left.
    + intros [-> | []]. now left.
  - inversion Hnd as [|? ? Hnot Hrest]; subst.
    destruct (IH Hrest) as [IH1 IH2].
    destruct (str_eqb k0 k) eqn:E; simpl.
    + apply str_eqb_eq in E. subst k0. split; [exact Hnd|].
      intros k'. split; [auto | intros [-> | H]; auto].
    + split.
      * constructor; [|exact IH1]. rewrite IH2. intros [-> | H]; [|contradiction].
        rewrite str_eqb_refl in E. discriminate.
      * intros k'. rewrite IH2. tauto.
Qed.

(** ** More on the listing model *)

Section ItemExtras.
Context {rt : Runtime}.
Import item.

Lemma first_valid_trimmed (cands : list value) (r : str) :
  first_valid cands = Ok r -> strip r = r.
Proof.
  induction cands as [|c cands IH]; simpl.
  - intros [= <-]. reflexivity.
  - destruct (truthy c); [|exact IH].
    destruct c as [| b | n | x | s | l | d]; try discriminate.
    destruct (strip s) eqn:E; [exact IH|].
    intros [= <-]. rewrite <- E. apply strip_idem.
Qed.

(** X1.  Whenever description extraction returns, the description is not
    empty and has no white space at either end. *)
Theorem extract_description_trimmed (data : dict) (r : str) :
  _extract_description data = Ok r ->
  r <> [] /\ strip r = r /\ lstrip r = r.
Proof.
  intros H. split; [now apply extract_description_nonempty in H|].
  unfold _extract_description in H. apply bind_ok in H as [cands [_ H]].
  pose proof (first_valid_trimmed _ _ H) as Hs. split; [exact Hs|].
  rewrite <- Hs at 1. unfold strip.
  set (w := lstrip (rev (lstrip r))).
  destruct (lstrip_suffix (rev (lstrip r))) as [pre Hpre]. fold w in Hpre.
  assert (Ht : lstrip r = rev w ++ rev pre)
    by (rewrite <- rev_app_distr, <- Hpre; now rewrite rev_involutive).
  assert (Hr : rev w = r) by exact Hs.
  destruct (rev w) as [|c x] eqn:Ew; [now rewrite <- Hr|].
  assert (Hc : isspace c = false).
  { apply (lstrip_head c (x ++ rev pre)). simpl in Ht. rewrite <- Ht.
    apply lstrip_idem. }
  rewrite <- Hr. simpl. now rewrite Hc.
Qed.

Lemma candidates_head (data : dict) (cands : list value) (v : value) :
  lookup (u "description") data = Some v ->
  description_candidates data = Ok cands ->
  exists rest, cands = v :: rest.
Proof.
  intros Hl H. unfold description_candidates in H.
  apply bind_ok in H as [in_box [_ H]].
  apply bind_ok in H as [boxed [_ H]].
  apply bind_ok in H as [page_props [_ H]].
  apply bind_ok in H as [item_dto [_ H]].
  apply bind_ok in H as [in_dto [_ H]].
  apply bind_ok in H as [dto [_ H]].
  apply bind_ok in H as [sections [_ H]].
  apply bind_ok in H as [sectioned [_ H]].
  injection H as <-. unfold dict_mem, dict_get. rewrite Hl.
  simpl. eauto.
Qed.

(** X2.  When the candidates can be collected at all (no nested container
    is of a kind that makes the collection raise), a top-level description
    that Python takes for true and that is not a string makes description
    extraction raise [AttributeError], even when a later candidate is a good
    string: the scan calls [strip] on it. *)
Theorem extract_description_non_string (data : dict) (v : value)
    (cands : list value) :
  lookup (u "description") data = Some v ->
  truthy v = true ->
  (forall s, v <> VStr s) ->
  description_candidates data = Ok cands ->
  _extract_description data = Raise AttributeError.
Proof.
  intros Hl Ht Hs Hc.
  destruct (candidates_head _ _ _ Hl Hc) as [rest ->].
  unfold _extract_description. rewrite Hc. cbn [bind first_valid].
  rewrite Ht. destruct v; try reflexivity. now destruct (Hs s).
Qed.

(** X3.  The feedback counts of a listing: with no user object all three
    are 0; with a user object each is the user's field, 0 when the field is
    missing; a user that is not an object raises [AttributeError].  The
    result always has the three keys, in the same order. *)
Theorem extract_user_feedback_counts (data : dict) :
  match lookup (u "user") data with
  | None =>
      _extract_user_feedback data
      = Ok [ (u "positive_feedback_count", VInt 0);
             (u "neutral_feedback_count", VInt 0);
             (u "negative_feedback_count", VInt 0) ]
  | Some (VDict user) =>
      exists fb,
        _extract_user_feedback data = Ok fb
        /\ map fst fb = [ u "positive_feedback_count";
                          u "neutral_feedback_count";
                          u "negative_feedback_count" ]
        /\ forall key, In key (map fst fb) ->
             lookup key fb = Some (dict_get user key (VInt 0))
  | Some _ => _extract_user_feedback data = Raise AttributeError
  end.
Proof.
  unfold _extract_user_feedback, dict_get.
  destruct (lookup (u "user") data) as [[| b | n | x | s | l | user]|];
    try reflexivity.
  eexists. split; [reflexivity|]. split; [reflexivity|].
  intros key [<- | [<- | [<- | []]]]; reflexivity.
Qed.

Lemma photo_timestamp_shape (data : dict) :
  Spec.dict_or_absent (lookup (u "photo") data) = true ->
  Spec.dict_or_absent
    (Spec.field (u "high_resolution") (lookup (u "photo") data)) = true ->
  photo_timestamp data = Ok (Spec.photo_timestamp_value data).
Proof.
  unfold photo_timestamp, Spec.photo_timestamp_value, dict_get.
  destruct (lookup (u "photo") data) as [[| b | n | x | s | l | photo]|];
    simpl; try discriminate; intros _; [|reflexivity].
  unfold dict_get.
  destruct (lookup (u "high_resolution") photo)
    as [[| b | n | x | s | l | hr]|]; simpl; try discriminate; intros _;
    [|reflexivity].
  unfold dict_get. now destruct (lookup (u "timestamp") hr).
Qed.

Lemma textual_truthy (v : value) :
  Spec.textual v = true -> truthy v = true -> exists c s, v = VStr (c :: s).
Proof.
  destruct v as [| b | n | x | s | l | d]; simpl; intros Ht Hv;
    try discriminate; try (rewrite negb_true_iff in Ht; congruence).
  destruct s as [|c s]; [discriminate | eauto].
Qed.

Lemma created_at_textual (data : dict) :
  Spec.textual (dict_get data (u "created_at_ts") VNone) = true ->
  exists o,
    created_at_source data = Ok o
    /\ (truthy (dict_get data (u "created_at_ts") VNone) = false -> o = None).
Proof.
  intros Ht. unfold created_at_source.
  destruct (truthy (dict_get data (u "created_at_ts") VNone)) eqn:Hv.
  - destruct (textual_truthy _ Ht Hv) as (c & s & ->). simpl.
    eexists. split; [reflexivity | discriminate].
  - exists None. auto.
Qed.

Lemma last_logged_textual (data : dict) :
  Spec.textual (dict_get data (u "last_loged_on_ts") VNone) = true ->
  exists o,
    last_logged_source data = Ok o
    /\ (truthy (dict_get data (u "last_loged_on_ts") VNone) = false -> o = None).
Proof.
  intros Ht. unfold last_logged_source.
  destruct (truthy (dict_get data (u "last_loged_on_ts") VNone)) eqn:Hv.
  - destruct (textual_truthy _ Ht Hv) as (c & s & ->).
    eexists. split; [reflexivity | discriminate].
  - exists None. auto.
Qed.

Lemma parse_timestamp_textual (now : datetime) (data : dict) :
  Spec.dict_or_absent (lookup (u "photo") data) = true ->
  Spec.dict_or_absent
    (Spec.field (u "high_resolution") (lookup (u "photo") data)) = true ->
  Spec.textual (Spec.photo_timestamp_value data) = true ->
  Spec.textual (dict_get data (u "created_at_ts") VNone) = true ->
  Spec.textual (dict_get data (u "last_loged_on_ts") VNone) = true ->
  (exists d, _parse_timestamp now data = Ok d)
  /\ (truthy (Spec.photo_timestamp_value data) = false ->
      truthy (dict_get data (u "created_at_ts") VNone) = false ->
      truthy (dict_get data (u "last_loged_on_ts") VNone) = false ->
      _parse_timestamp now data = Ok now).
Proof.
  intros Hp Hh Ht Hc Hl.
  unfold _parse_timestamp, timestamp_sources.
  rewrite (photo_timestamp_shape _ Hp Hh). cbn [bind].
  destruct (truthy (Spec.photo_timestamp_value data)) eqn:Hv.
  - destruct (textual_truthy _ Ht Hv) as (c & s & ->). simpl.
    split; [eauto | discriminate].
  - destruct (created_at_textual _ Hc) as (oc & -> & Hoc).
    destruct (last_logged_textual _ Hl) as (ol & El & Hol).
    cbn [bind]. split.
    + destruct oc as [d|]; [simpl; eauto|]. rewrite El.
      destruct ol as [d|]; simpl; eauto.
    + intros _ Hcf Hlf. rewrite (Hoc Hcf), El, (Hol Hlf). reflexivity.
Qed.

Lemma extract_user_feedback_ok (data : dict) :
  Spec.dict_or_absent (lookup (u "user") data) = true ->
  exists fb, _extract_user_feedback data = Ok fb.
Proof.
  unfold _extract_user_feedback, dict_get.
  destruct (lookup (u "user") data) as [[| b | n | x | s | l | user]|];
    simpl; try discriminate; eauto.
Qed.

(** X4.  Timestamp resolution never lets a [ValueError] or a [TypeError]
    out.  On a record whose photo is an object or absent and whose three
    timestamp values are strings or values Python takes for false, it
    returns a time; when all three are false or missing, that time is the
    current time. *)
Theorem parse_timestamp_total (now : datetime) (data : dict) :
  (forall e, _parse_timestamp now data = Raise e ->
             e <> ValueError /\ e <> TypeError)
  /\ (Spec.dict_or_absent (lookup (u "photo") data) = true ->
      Spec.dict_or_absent
        (Spec.field (u "high_resolution") (lookup (u "photo") data)) = true ->
      Spec.textual (Spec.photo_timestamp_value data) = true ->
      Spec.textual (dict_get data (u "created_at_ts") VNone) = true ->
      Spec.textual (dict_get data (u "last_loged_on_ts") VNone) = true ->
      (exists d, _parse_timestamp now data = Ok d)
      /\ (truthy (Spec.photo_timestamp_value data) = false ->
          truthy (dict_get data (u "created_at_ts") VNone) = false ->
          truthy (dict_get data (u "last_loged_on_ts") VNone) = false ->
          _parse_timestamp now data = Ok now)).
Proof.
  split.
  - intros e. unfold _parse_timestamp, settle.
    destruct (timestamp_sources data) as [[d|]|[]]; try discriminate;
      intros [= <-]; split; discriminate.
  - apply parse_timestamp_textual.
Qed.

(** X5.  Construction succeeds on a record of the expected shape: photo,
    its high_resolution and user are objects or absent, the description
    sources are as in [Spec.shape_ok], and the timestamp values are strings
    or false.  The listing then carries the specification's description,
    the photo URL or its default, an empty enrichment slot and the record
    itself. *)
Theorem init_on_expected_shape (now : datetime) (data : dict) :
  Spec.dict_or_absent (lookup (u "photo") data) = true ->
  Spec.dict_or_absent
    (Spec.field (u "high_resolution") (lookup (u "photo") data)) = true ->
  Spec.dict_or_absent (lookup (u "user") data) = true ->
  Spec.shape_ok data = true ->
  Spec.textual (Spec.photo_timestamp_value data) = true ->
  Spec.textual (dict_get data (u "created_at_ts") VNone) = true ->
  Spec.textual (dict_get data (u "last_loged_on_ts") VNone) = true ->
  exists it,
    __init__ now data = Ok it
    /\ description it = Spec.description data
    /\ photo_url it
       = match Spec.field (u "url") (lookup (u "photo") data) with
         | Some v => v
         | None => VStr (u "No photo URL")
         end
    /\ rapid_api_description it = VNone
    /\ raw_data it = data
    /\ id it = dict_get data (u "id") (VStr (u "Unknown ID")).
Proof.
  intros Hp Hh Hu Hs Ht Hc Hl. unfold __init__.
  assert (Ephoto :
            get (dict_get data (u "photo") (VDict [])) (u "url")
                (VStr (u "No photo URL"))
            = Ok match Spec.field (u "url") (lookup (u "photo") data) with
                 | Some v => v
                 | None => VStr (u "No photo URL")
                 end).
  { unfold dict_get at 1.
    destruct (lookup (u "photo") data) as [[| b | n | x | s | l | photo]|];
      simpl in *; try discriminate; reflexivity. }
  rewrite Ephoto. cbn [bind].
  rewrite (extract_description_refine _ Hs). cbn [bind].
  destruct (parse_timestamp_textual now data Hp Hh Ht Hc Hl) as [[d Ed] _].
  rewrite Ed. cbn [bind].
  destruct (extract_user_feedback_ok _ Hu) as [fb ->]. cbn [bind].
  eexists. split; [reflexivity|]. simpl. auto.
Qed.

(** X6.  The enrichment setter on any listing: the last truthy value set
    is the one displayed, a falsy value after it changes nothing, and the
    setter touches no other attribute. *)
Theorem update_description_last_truthy (self : Item) (d1 d2 : value) :
  (truthy d2 = true ->
   update_description_from_rapid_api
     (update_description_from_rapid_api self d1) d2
   = update_description_from_rapid_api self d2)
  /\ (truthy d1 = true -> truthy d2 = false ->
      get_description
        (update_description_from_rapid_api
           (update_description_from_rapid_api self d1) d2) = d1)
  /\ description (update_description_from_rapid_api self d1) = description self
  /\ id (update_description_from_rapid_api self d1) = id self
  /\ created_at_ts (update_description_from_rapid_api self d1)
     = created_at_ts self
  /\ user_feedback (update_description_from_rapid_api self d1)
     = user_feedback self
  /\ raw_data (update_description_from_rapid_api self d1) = raw_data self.
Proof.
  unfold update_description_from_rapid_api, get_description.
  destruct (truthy d1) eqn:H1; destruct (truthy d2) eqn:H2; simpl;
    rewrite ?H1, ?H2; repeat split; auto; discriminate.
Qed.

End ItemExtras.

Lemma extract_description_trimmed_witness :
  item._extract_description
    [ (u "item_box", VDict [ (u "description", VStr (u "  Linen shirt ")) ]) ]
  = Ok (u "Linen shirt")
  /\ strip (u "Linen shirt") = u "Linen shirt".
Proof.
  split; [reflexivity|].
  exact (proj1 (proj2 (extract_description_trimmed
    [ (u "item_box", VDict [ (u "description", VStr (u "  Linen shirt ")) ]) ]
    (u "Linen shirt") eq_refl))).
Defined.

Lemma extract_description_non_string_witness :
  item._extract_description
    [ (u "description", VInt 5);
      (u "item_box", VDict [ (u "description", VStr (u "Linen shirt")) ]) ]
  = Raise AttributeError.
Proof.
  refine (extract_description_non_string
    [ (u "description", VInt 5);
      (u "item_box", VDict [ (u "description", VStr (u "Linen shirt")) ]) ]
    (VInt 5) _ eq_refl eq_refl _ eq_refl).
  intros s. discriminate.
Defined.

Lemma extract_user_feedback_counts_witness :
  exists fb,
    item._extract_user_feedback
      [ (u "user", VDict [ (u "id", VInt 7);
                           (u "positive_feedback_count", VInt 12) ]) ] = Ok fb
    /\ lookup (u "positive_feedback_count") fb = Some (VInt 12)
    /\ lookup (u "negative_feedback_count") fb = Some (VInt 0).
Proof.
  destruct (extract_user_feedback_counts
    [ (u "user", VDict [ (u "id", VInt 7);
                         (u "positive_feedback_count", VInt 12) ]) ])
    as (fb & E & K & H).
  exists fb. split; [exact E|]. split.
  - apply (H (u "positive_feedback_count")). rewrite K. simpl. auto.
  - apply (H (u "negative_feedback_count")). rewrite K. simpl. auto.
Defined.

Lemma parse_timestamp_total_witness :
  item._parse_timestamp (rt := Sample.runtime) 1800000000000000
    [ (u "id", VInt 1); (u "photo", VDict [ (u "url", VStr (u "p.jpg")) ]) ]
  = Ok 1800000000000000.
Proof.
  refine (proj2 (proj2 (parse_timestamp_total (rt := Sample.runtime)
    1800000000000000
    [ (u "id", VInt 1); (u "photo", VDict [ (u "url", VStr (u "p.jpg")) ]) ])
    eq_refl eq_refl eq_refl eq_refl eq_refl) eq_refl eq_refl eq_refl).
Defined.

Lemma init_on_expected_shape_witness :
  exists it,
    item.__init__ (rt := Sample.runtime) 1800000000000000
      [ (u "id", VInt 1); (u "photo", VDict [ (u "url", VStr (u "p.jpg")) ]) ]
    = Ok it
    /\ item.photo_url it = VStr (u "p.jpg")
    /\ item.description it = u "No description provided".
Proof.
  destruct (init_on_expected_shape (rt := Sample.runtime) 1800000000000000
    [ (u "id", VInt 1); (u "photo", VDict [ (u "url", VStr (u "p.jpg")) ]) ]
    eq_refl eq_refl eq_refl eq_refl eq_refl eq_refl eq_refl)
    as (it & E & Hd & Hp & _).
  exists it. split; [exact E|]. split; [exact Hp | exact Hd].
Defined.

Lemma update_description_last_truthy_witness :
  item.get_description
    (item.update_description_from_rapid_api
       (item.update_description_from_rapid_api
          {| item.raw_data := []; item.id := VInt 1;
             item.title := VStr (u "Shirt"); item.price := VInt 20;
             item.currency := VStr (u "GBP");
             item.brand_title := VStr (u "Palace");
             item.size_title := VStr (u "M"); item.url := VStr (u "/1");
             item.photo_url := VStr (u "p.jpg");
             item.description := u "No description provided";
             item.rapid_api_description := VNone;
             item.created_at_ts := 1800000000000000;
             item.status := VStr (u "Good"); item.user_feedback := [] |}
          (VStr (u "Boxy fit")))
       VNone)
  = VStr (u "Boxy fit").
Proof.
  exact (proj1 (proj2 (update_description_last_truthy _
    (VStr (u "Boxy fit")) VNone)) eq_refl eq_refl).
Defined.

(** ** More on the brand matcher *)

Section MatcherExtras.
Context {rt : Runtime}.
Import main.

Lemma lookup_in {A} (k : str) (d : list (str * A)) (v : A) :
  lookup k d = Some v -> In (k, v) d.
Proof.
  induction d as [|[k' v'] d IH]; simpl; [discriminate|].
  destruct (str_eqb k' k) eqn:E.
  - apply str_eqb_eq in E. intros [= ->]. left. now subst.
  - intros H. right. now apply IH.
Qed.

Lemma find_last {A} (f : A -> bool) (l : list A) (x : A) :
  find f (l ++ [x])
  = match find f l with
    | Some y => Some y
    | None => if f x then Some x else None
    end.
Proof.
  induction l as [|y l IH]; simpl; [reflexivity|].
  destruct (f y); [reflexivity | exact IH].
Qed.

Lemma last_route_cons (e : str * route) (entries : list (str * route))
    (key : str) :
  Spec.last_route (e :: entries) key
  = match Spec.last_route entries key with
    | Some r => Some r
    | None => if str_eqb (fst e) key then Some (snd e) else None
    end.
Proof.
  unfold Spec.last_route. simpl rev. rewrite find_last.
  destruct (find _ (rev entries)); [reflexivity|].
  now destruct (str_eqb (fst e) key).
Qed.

(** Writing the entries one after the other into a dictionary. *)
Lemma writes_lookup (entries : list (str * route)) (init : alias_index)
    (key : str) :
  lookup key
    (fold_left (fun mapping e => dict_set (fst e) (snd e) mapping) entries init)
  = match Spec.last_route entries key with
    | Some r => Some r
    | None => lookup key init
    end.
Proof.
  revert init. induction entries as [|[k v] entries IH]; intros init.
  - reflexivity.
  - cbn [fold_left]. rewrite IH, last_route_cons. cbn [fst snd].
    destruct (Spec.last_route entries key); [reflexivity|].
    destruct (str_eqb k key) eqn:E.
    + apply str_eqb_eq in E. subst. apply lookup_dict_set_same.
    + apply lookup_dict_set_other. intros ->.
      rewrite str_eqb_refl in E. discriminate.
Qed.

Lemma writes_keys (entries : list (str * route)) (init : alias_index) :
  NoDup (map fst init) ->
  NoDup (map fst
           (fold_left (fun mapping e => dict_set (fst e) (snd e) mapping)
                      entries init)).
Proof.
  revert init. induction entries as [|[k v] entries IH]; intros init Hnd;
    [exact Hnd|].
  cbn [fold_left]. apply IH. now apply dict_set_keys.
Qed.

Lemma create_alias_mapping_writes (brand_channels : list (str * brand_config))
    (init : alias_index) :
  fold_left (fun mapping entry => register_aliases (fst entry) (snd entry) mapping)
            brand_channels init
  = fold_left (fun mapping e => dict_set (fst e) (snd e) mapping)
              (Spec.alias_entries brand_channels) init.
Proof.
  revert init. induction brand_channels as [|[brand data] rest IH]; intros init.
  - reflexivity.
  - cbn [fold_left]. rewrite IH.
    unfold Spec.alias_entries. cbn [flat_map]. rewrite fold_left_app.
    f_equal. unfold register_aliases. cbn [fst snd].
    generalize (config_aliases data) init.
    induction l as [|alias l IHl]; intros init'; [reflexivity|].
    cbn [fold_left map]. apply IHl.
Qed.

Lemma create_alias_mapping_lookup
    (brand_channels : list (str * brand_config)) (key : str) :
  lookup key (_create_alias_mapping brand_channels)
  = Spec.last_route (Spec.alias_entries brand_channels) key.
Proof.
  unfold _create_alias_mapping.
  rewrite create_alias_mapping_writes, writes_lookup.
  now destruct (Spec.last_route _ key).
Qed.

(** X7.  The alias index built from the configuration answers a key with
    the route of the last configured alias that lower-cases to it, holds
    every key once, and holds no route the configuration does not give. *)
Theorem alias_index_last_write_wins
    (brand_channels : list (str * brand_config)) :
  (forall key,
      lookup key (_create_alias_mapping brand_channels)
      = Spec.last_route (Spec.alias_entries brand_channels) key)
  /\ NoDup (map fst (_create_alias_mapping brand_channels))
  /\ (forall key r,
        lookup key (_create_alias_mapping brand_channels) = Some r ->
        exists brand data alias,
          In (brand, data) brand_channels
          /\ In alias (config_aliases data)
          /\ key = lower alias
          /\ r = {| main_brand := brand;
                    channel_id := config_channel_id data |}).
Proof.
  pose proof (create_alias_mapping_lookup brand_channels) as L.
  split; [exact L|]. split.
  - unfold _create_alias_mapping. rewrite create_alias_mapping_writes.
    apply writes_keys. constructor.
  - intros key r H. rewrite L in H. unfold Spec.last_route in H.
    destruct (find _ (rev (Spec.alias_entries brand_channels)))
      as [[k v]|] eqn:F; [|discriminate].
    injection H as <-. apply find_some in F as [Hin Hk].
    apply str_eqb_eq in Hk. cbn [fst snd] in *. subst k.
    apply in_rev in Hin. unfold Spec.alias_entries in Hin.
    apply in_flat_map in Hin as ([brand data] & Hb & Ha).
    apply in_map_iff in Ha as (alias & [= <- <-] & Ha).
    exists brand, data, alias. auto.
Qed.

Lemma first_variation_in (brand_aliases : alias_index) (vs : list str)
    (r : route) :
  first_variation brand_aliases vs = Some r ->
  exists key, In key vs /\ In (key, r) brand_aliases.
Proof.
  induction vs as [|v vs IH]; simpl; [discriminate|].
  destruct (lookup v brand_aliases) eqn:E.
  - intros [= <-]. exists v. split; [now left | now apply lookup_in].
  - intros H. destruct (IH H) as (key & Hk & Hin). exists key. auto.
Qed.

(** X8.  The matcher only ever answers with a route of the index it is
    given; an empty title and an empty index have no match. *)
Theorem find_matching_brand_registered (brand_aliases : alias_index)
    (brand_title : str) :
  (forall r,
      _find_matching_brand brand_aliases brand_title = Some r ->
      exists alias, In (alias, r) brand_aliases)
  /\ _find_matching_brand brand_aliases [] = None
  /\ _find_matching_brand [] brand_title = None.
Proof.
  split; [|split].
  - intros r. unfold _find_matching_brand.
    destruct brand_title as [|c rest]; [discriminate|].
    set (brand_lower := strip (lower (c :: rest))).
    destruct (lookup brand_lower brand_aliases) eqn:E.
    + intros [= <-]. exists brand_lower. now apply lookup_in.
    + destruct (first_variation brand_aliases (variations brand_lower)) eqn:V.
      * intros [= <-]. destruct (first_variation_in _ _ _ V) as (key & _ & H).
        now exists key.
      * intros H. apply partial_match_some in H
          as (pre & alias & post & -> & _ & _).
        exists alias. apply in_or_app. right. now left.
  - reflexivity.
  - unfold _find_matching_brand. now destruct brand_title.
Qed.

(** X9.  A title that, lower-cased and trimmed, is a key of the
    configuration resolves to the route of the last configured alias with
    that key, whatever the other rules would find. *)
Theorem configured_alias_resolves
    (brand_channels : list (str * brand_config)) (brand_title : str)
    (r : route) :
  brand_title <> [] ->
  Spec.last_route (Spec.alias_entries brand_channels)
                  (strip (lower brand_title)) = Some r ->
  _find_matching_brand (_create_alias_mapping brand_channels) brand_title
  = Some r.
Proof.
  intros Hne H. unfold _find_matching_brand.
  destruct brand_title as [|c rest]; [contradiction|].
  rewrite create_alias_mapping_lookup. now rewrite H.
Qed.

(** X10.  A size is taken for a child size exactly when it is not empty
    and its lower-case form has one of the five indicators as a substring. *)
Theorem is_child_size_substring (size_title : str) :
  _is_child_size size_title = true
  <-> size_title <> []
      /\ exists indicator pre post,
           In indicator child_indicators
           /\ lower size_title = pre ++ indicator ++ post.
Proof.
  unfold _is_child_size. destruct size_title as [|c rest].
  - split; [discriminate | intros [H _]; contradiction].
  - rewrite existsb_exists. split.
    + intros (indicator & Hin & Hc). split; [discriminate|].
      apply contains_substring in Hc as (pre & post & E).
      now exists indicator, pre, post.
    + intros (_ & indicator & pre & post & Hin & E).
      exists indicator. split; [exact Hin|].
      apply contains_substring. now exists pre, post.
Qed.

End MatcherExtras.

Lemma alias_index_last_write_wins_witness :
  lookup (u "stussy")
    (main._create_alias_mapping (rt := Sample.runtime)
       [ (u "Stussy",
          {| main.config_channel_id := 3;
             main.config_aliases := [u "Stussy"; u "STUSSY"] |});
         (u "Stussy Europe",
          {| main.config_channel_id := 4;
             main.config_aliases := [u "stussy"] |}) ])
  = Some {| main.main_brand := u "Stussy Europe"; main.channel_id := 4 |}.
Proof.
  exact (proj1 (alias_index_last_write_wins (rt := Sample.runtime)
    [ (u "Stussy",
       {| main.config_channel_id := 3;
          main.config_aliases := [u "Stussy"; u "STUSSY"] |});
      (u "Stussy Europe",
       {| main.config_channel_id := 4;
          main.config_aliases := [u "stussy"] |}) ]) (u "stussy")).
Defined.

Lemma find_matching_brand_registered_witness :
  exists alias,
    In (alias, {| main.main_brand := u "Bape"; main.channel_id := 9 |})
       [ (u "bape", {| main.main_brand := u "Bape"; main.channel_id := 9 |}) ].
Proof.
  exact (proj1 (find_matching_brand_registered (rt := Sample.runtime)
    [ (u "bape", {| main.main_brand := u "Bape"; main.channel_id := 9 |}) ]
    (u "A Bathing Ape (BAPE)")) _ eq_refl).
Defined.

Lemma configured_alias_resolves_witness :
  main._find_matching_brand (rt := Sample.runtime)
    (main._create_alias_mapping (rt := Sample.runtime)
       [ (u "Acne Studios",
          {| main.config_channel_id := 5;
             main.config_aliases := [u "Acne Studios"; u "Acne"] |}) ])
    (u "  ACNE studios ")
  = Some {| main.main_brand := u "Acne Studios"; main.channel_id := 5 |}.
Proof.
  apply (configured_alias_resolves (rt := Sample.runtime));
    [discriminate | reflexivity].
Defined.

Lemma is_child_size_substring_witness :
  main._is_child_size (rt := Sample.runtime) (u "6-9 Months") = true.
Proof.
  apply (is_child_size_substring (rt := Sample.runtime)).
  split; [discriminate|].
  exists (u "months"), (u "6-9 "), []. split; [now left | reflexivity].
Defined.

(** ** More on the renderer *)

Section RenderExtras.
Import main.

Lemma time_ago_unit (n : Z) (unit : str) :
  1 <= n ->
  str_of_int n ++ unit ++ plural n ++ u " ago"
  = str_of_int n ++ unit ++ (if n <? 2 then u " ago" else u "s ago").
Proof.
  intros H. unfold plural.
  destruct (Z.eqb_spec n 1) as [->|Hn]; [reflexivity|].
  destruct (Z.ltb_spec n 2); [lia | reflexivity].
Qed.

(** X11.  The relative time by the elapsed seconds: below 60, negative
    values included, the seconds themselves; then whole minutes, hours and
    days, rounded down, with the plural "s" exactly from two units on.  A
    listing less than a second old or less than a second ahead of the clock
    is "0 seconds ago". *)
Theorem time_ago_buckets (seconds_diff : Z) :
  (seconds_diff < 60 ->
   time_ago_of seconds_diff = str_of_int seconds_diff ++ u " seconds ago")
  /\ (60 <= seconds_diff < 3600 ->
      time_ago_of seconds_diff
      = str_of_int (seconds_diff / 60) ++ u " minute"
          ++ (if seconds_diff <? 120 then u " ago" else u "s ago"))
  /\ (3600 <= seconds_diff < 86400 ->
      time_ago_of seconds_diff
      = str_of_int (seconds_diff / 3600) ++ u " hour"
          ++ (if seconds_diff <? 7200 then u " ago" else u "s ago"))
  /\ (86400 <= seconds_diff ->
      time_ago_of seconds_diff
      = str_of_int (seconds_diff / 86400) ++ u " day"
          ++ (if seconds_diff <? 172800 then u " ago" else u "s ago"))
  /\ (forall now created_at,
        -1000000 < now - created_at < 1000000 ->
        time_ago now created_at = u "0 seconds ago").
Proof.
  unfold time_ago_of.
  split; [|split; [|split; [|split]]].
  - intros H. destruct (Z.ltb_spec seconds_diff 60); [reflexivity | lia].
  - intros H.
    destruct (Z.ltb_spec seconds_diff 60); [lia|].
    destruct (Z.ltb_spec seconds_diff 3600); [|lia].
    assert (1 <= seconds_diff / 60) by (apply Z.div_le_lower_bound; lia).
    rewrite time_ago_unit by assumption. repeat f_equal.
    destruct (Z.ltb_spec seconds_diff 120), (Z.ltb_spec (seconds_diff / 60) 2);
      try reflexivity.
    + assert (seconds_diff / 60 < 2) by (apply Z.div_lt_upper_bound; lia). lia.
    + assert (2 <= seconds_diff / 60) by (apply Z.div_le_lower_bound; lia). lia.
  - intros H.
    destruct (Z.ltb_spec seconds_diff 60); [lia|].
    destruct (Z.ltb_spec seconds_diff 3600); [lia|].
    destruct (Z.ltb_spec seconds_diff 86400); [|lia].
    assert (1 <= seconds_diff / 3600) by (apply Z.div_le_lower_bound; lia).
    rewrite time_ago_unit by assumption. repeat f_equal.
    destruct (Z.ltb_spec seconds_diff 7200),
      (Z.ltb_spec (seconds_diff / 3600) 2); try reflexivity.
    + assert (seconds_diff / 3600 < 2) by (apply Z.div_lt_upper_bound; lia). lia.
    + assert (2 <= seconds_diff / 3600) by (apply Z.div_le_lower_bound; lia). lia.
  - intros H.
    destruct (Z.ltb_spec seconds_diff 60); [lia|].
    destruct (Z.ltb_spec seconds_diff 3600); [lia|].
    destruct (Z.ltb_spec seconds_diff 86400); [lia|].
    assert (1 <= seconds_diff / 86400) by (apply Z.div_le_lower_bound; lia).
    rewrite time_ago_unit by assumption. repeat f_equal.
    destruct (Z.ltb_spec seconds_diff 172800),
      (Z.ltb_spec (seconds_diff / 86400) 2); try reflexivity.
    + assert (seconds_diff / 86400 < 2) by (apply Z.div_lt_upper_bound; lia). lia.
    + assert (2 <= seconds_diff / 86400) by (apply Z.div_le_lower_bound; lia). lia.
  - intros now created_at H. unfold time_ago.
    rewrite total_seconds_small by exact H. reflexivity.
Qed.

(** X24.  For an age below 2 ^ 53 microseconds (some 285 years) either
    way, the whole seconds that [time_ago] takes through the [float] of
    [total_seconds()] are those of the exact age, the fraction dropped
    towards zero.  Beyond that they need not be: one microsecond short of
    a million days is rendered as a million days. *)
Theorem time_ago_whole_seconds :
  (forall now created_at : datetime,
      - 2 ^ 53 < now - created_at < 2 ^ 53 ->
      time_ago now created_at
      = time_ago_of (Z.quot (now - created_at) 1000000))
  /\ time_ago 86399999999999999 0 = u "1000000 days ago"
  /\ time_ago_of (Z.quot 86399999999999999 1000000) = u "999999 days ago".
Proof.
  split; [|split; vm_compute; reflexivity].
  intros now created_at H. unfold time_ago.
  now rewrite total_seconds_exact.
Qed.



End RenderExtras.

Lemma time_ago_buckets_witness :
  main.time_ago_of 5400 = u "1 hour ago"
  /\ main.time_ago_of (-5) = u "-5 seconds ago".
Proof.
  split.
  - exact (proj1 (proj2 (proj2 (time_ago_buckets 5400))) ltac:(lia)).
  - exact (proj1 (time_ago_buckets (-5)) ltac:(lia)).
Defined.

Lemma time_ago_whole_seconds_witness :
  main.time_ago 1800000090500000 1800000000000000 = u "1 minute ago"
  /\ main.time_ago 1800000000000000 1800000002500000 = u "-2 seconds ago".
Proof.
  split.
  - exact (proj1 time_ago_whole_seconds 1800000090500000 1800000000000000
             (conj eq_refl eq_refl)).
  - exact (proj1 time_ago_whole_seconds 1800000000000000 1800000002500000
             (conj eq_refl eq_refl)).
Defined.


(** ** More on the enrichment client *)

Section EnrichmentExtras.
Import main.

Variable http : nat -> request -> response.

Lemma retry_budget r on_success attempts :
  (forall body, (exists data, on_success body = Ok data)
                \/ on_success body = Raise AttributeError) ->
  Forall (fun attempt => 0 <= attempt) attempts ->
  forall s, exists res evs,
    retry http r on_success attempts s = (res, extend s evs)
    /\ (attempts <> [] -> exists rest, evs = EvGet r :: rest)
    /\ 0 <= total_sleep evs
       <= fold_right (fun attempt acc => 2 ^ attempt + acc) 0 attempts.
Proof.
  intros Hf Hpos. induction Hpos as [|attempt rest Ha Hrest IH]; intros s.
  - exists (Ok VNone), []. rewrite extend_nil. simpl.
    split; [reflexivity|]. split; [congruence | lia].
  - assert (P : 0 < 2 ^ attempt) by (apply Z.pow_pos_nonneg; lia).
    assert (Hstep : forall s0, exists res evs,
               retry http r on_success rest
                 (emit (EvSleep (2 ^ attempt)) (emit (EvGet r) s0))
               = (res, extend s0 ([EvGet r; EvSleep (2 ^ attempt)] ++ evs))
               /\ 0 <= total_sleep evs
                  <= fold_right (fun a acc => 2 ^ a + acc) 0 rest).
    { intros s0.
      destruct (IH (emit (EvSleep (2 ^ attempt)) (emit (EvGet r) s0)))
        as (res & evs & E & _ & B).
      exists res, evs. rewrite E, !emit_extend, !extend_extend. auto. }
    assert (F : 0 <= fold_right (fun a acc => 2 ^ a + acc) 0 rest).
    { destruct (Hstep s) as (res & evs & _ & B). lia. }
    cbn [fold_right].
    destruct (http (List.length (trace s)) r) as [status body|] eqn:H.
    + destruct (is_error status) eqn:He.
      * destruct (Z.eq_dec status 429) as [->|Hs].
        -- rewrite (retry_rate_limited _ _ _ attempt rest _ _ H).
           destruct (Hstep s) as (res & evs & E & B).
           exists res, ([EvGet r; EvSleep (2 ^ attempt)] ++ evs).
           split; [exact E|]. split; [intros _; eexists; reflexivity|]. cbn [app total_sleep]. lia.
        -- rewrite (retry_http_error _ _ _ attempt rest _ _ _ H He Hs).
           exists (Ok VNone), [EvGet r]. rewrite emit_extend.
           split; [reflexivity|]. split; [intros _; eexists; reflexivity|]. cbn [total_sleep]. lia.
      * destruct (Hf body) as [[data Hd]|Hd].
        -- rewrite (retry_success _ _ _ attempt rest _ _ _ _ H He Hd).
           exists (Ok data), [EvGet r]. rewrite emit_extend.
           split; [reflexivity|]. split; [intros _; eexists; reflexivity|]. cbn [total_sleep]. lia.
        -- rewrite (retry_attribute_error _ _ _ attempt rest _ _ _ H He Hd).
           exists (Raise AttributeError), [EvGet r]. rewrite emit_extend.
           split; [reflexivity|]. split; [intros _; eexists; reflexivity|]. cbn [total_sleep]. lia.
    + rewrite (retry_transport_failure _ _ _ attempt rest _ H).
      destruct (Hstep s) as (res & evs & E & B).
      exists res, ([EvGet r; EvSleep (2 ^ attempt)] ++ evs).
      split; [exact E|]. split; [intros _; eexists; reflexivity|]. cbn [app total_sleep]. lia.
Qed.

Lemma range3_nonneg : Forall (fun attempt => 0 <= attempt) range3.
Proof. unfold range3. repeat constructor; lia. Qed.

Lemma fetch_user_feedback_cost user_id s :
  exists data rest,
    fetch_user_feedback http user_id s
    = (Ok data, extend s (EvGet (GetUserByID user_id) :: rest))
    /\ (gets (EvGet (GetUserByID user_id) :: rest) <= 3)%nat
    /\ forallb is_http rest = true
    /\ 0 <= total_sleep rest <= 7.
Proof.
  unfold fetch_user_feedback.
  destruct (retry_never_raises http (GetUserByID user_id)
              (fun feedback_data => Ok feedback_data) range3)
    with (s := s) as (data & evs & E & Hq & Hg); [eauto|].
  destruct (retry_budget (GetUserByID user_id)
              (fun feedback_data => Ok feedback_data) range3)
    with (s := s) as (res & evs' & E' & Hhd & B);
    [eauto | exact range3_nonneg |].
  rewrite E in E'. injection E' as _ E'. apply app_inv_head in E'. subst evs'.
  destruct Hhd as [rest ->]; [discriminate|].
  exists data, rest. split; [exact E|]. split; [exact Hg|].
  split; [exact Hq | exact B].
Qed.

Lemma fetch_item_description_cost item_id s :
  exists res rest,
    fetch_item_description http item_id s
    = (res, extend s (EvGet (GetProductByID item_id) :: rest))
    /\ (gets (EvGet (GetProductByID item_id) :: rest) <= 3)%nat
    /\ forallb is_http rest = true
    /\ 0 <= total_sleep rest <= 7.
Proof.
  unfold fetch_item_description.
  assert (Hf : forall body,
             (exists data, get body (u "description") VNone = Ok data)
             \/ get body (u "description") VNone = Raise AttributeError)
    by (intros body; destruct body; simpl; eauto).
  destruct (retry_outcome http (GetProductByID item_id)
              (fun item_data => get item_data (u "description") VNone)
              range3 Hf s) as (res & evs & E & Hq & Hg & _).
  destruct (retry_budget (GetProductByID item_id)
              (fun item_data => get item_data (u "description") VNone)
              range3 Hf range3_nonneg s) as (res' & evs' & E' & Hhd & B).
  rewrite E in E'. injection E' as _ E'. apply app_inv_head in E'. subst evs'.
  destruct Hhd as [rest ->]; [discriminate|].
  exists res, rest. split; [exact E|]. split; [exact Hg|].
  split; [exact Hq | exact B].
Qed.

(** X13.  What a fetch costs: it starts with a request, makes at most 3,
    does nothing but requests and sleeps, and sleeps 7 seconds at most
    (1 + 2 + 4), whatever the endpoint answers. *)
Theorem fetch_budget :
  (forall user_id s, exists data rest,
      fetch_user_feedback http user_id s
      = (Ok data, extend s (EvGet (GetUserByID user_id) :: rest))
      /\ (gets (EvGet (GetUserByID user_id) :: rest) <= 3)%nat
      /\ forallb is_http rest = true
      /\ 0 <= total_sleep rest <= 7)
  /\ (forall item_id s, exists res rest,
        fetch_item_description http item_id s
        = (res, extend s (EvGet (GetProductByID item_id) :: rest))
        /\ (gets (EvGet (GetProductByID item_id) :: rest) <= 3)%nat
        /\ forallb is_http rest = true
        /\ 0 <= total_sleep rest <= 7).
Proof.
  split; [exact fetch_user_feedback_cost | exact fetch_item_description_cost].
Qed.

Lemma retry_provenance r on_success attempts s data s' :
  retry http r on_success attempts s = (Ok data, s') ->
  data <> VNone ->
  exists t status body,
    http t r = Response status body
    /\ is_error status = false
    /\ on_success body = Ok data.
Proof.
  revert s. induction attempts as [|attempt rest IH]; intros s H Hd.
  - injection H as <- _. contradiction.
  - cbn [retry] in H. unfold mbind at 1 in H.
    unfold attempt_once, try_except, mbind at 1, requests_get in H.
    destruct (http (List.length (trace s)) r) as [status body|] eqn:Hr.
    + cbn [fst snd] in H. unfold mbind, raise_for_status in H.
      destruct (is_error status) eqn:He.
      * unfold raise in H.
        destruct (status =? 429); [now apply IH in H|].
        injection H as <- _. contradiction.
      * unfold ret, lift in H.
        destruct (on_success body) as [v|e] eqn:Hs.
        -- injection H as Hv _. subst v.
           exists (List.length (trace s)), status, body. auto.
        -- destruct e; try discriminate.
           ++ destruct (status_code =? 429); [now apply IH in H|].
              injection H as <- _. contradiction.
           ++ now apply IH in H.
    + now apply IH in H.
Qed.

(** X14.  A fetch that returns something other than [None] returns what
    the endpoint sent with a status that is no error: the feedback fetch
    the decoded body itself, the description fetch the field description
    of a body that is an object. *)
Theorem fetch_result_provenance :
  (forall user_id s data s',
      fetch_user_feedback http user_id s = (Ok data, s') ->
      data <> VNone ->
      exists t status,
        http t (GetUserByID user_id) = Response status data
        /\ is_error status = false)
  /\ (forall item_id s data s',
        fetch_item_description http item_id s = (Ok data, s') ->
        data <> VNone ->
        exists t status d,
          http t (GetProductByID item_id) = Response status (VDict d)
          /\ is_error status = false
          /\ lookup (u "description") d = Some data).
Proof.
  split.
  - intros user_id s data s' H Hd.
    destruct (retry_provenance _ _ _ _ _ _ H Hd)
      as (t & status & body & Hr & He & [= ->]). eauto.
  - intros item_id s data s' H Hd.
    destruct (retry_provenance _ _ _ _ _ _ H Hd)
      as (t & status & body & Hr & He & Hg).
    destruct body as [| b | n | x | st | l | d]; try discriminate.
    simpl in Hg. injection Hg as Hg. unfold dict_get in Hg.
    destruct (lookup (u "description") d) as [v|] eqn:El; [|congruence].
    subst v. eauto 6.
Qed.

End EnrichmentExtras.

Lemma fetch_result_provenance_witness :
  exists t status,
    (fun (_ : nat) (_ : main.request) =>
       main.Response 200 (VDict [ (u "positive_feedback_count", VInt 3) ]))
      t (main.GetUserByID 7)
    = main.Response status (VDict [ (u "positive_feedback_count", VInt 3) ])
    /\ main.is_error status = false.
Proof.
  refine (proj1 (fetch_result_provenance
    (fun _ _ =>
       main.Response 200 (VDict [ (u "positive_feedback_count", VInt 3) ])))
    7 main.initial _ _ eq_refl _).
  discriminate.
Defined.

(** ** More on the polling orchestrator *)

Section OrchestratorExtras.
Context {rt : Runtime}.
Import main.

Variable http : nat -> request -> response.
Variable get_channel : nat -> Z -> bool.
Variable embed : Type.
Variable channel_send : nat -> Z -> embed -> bool.
Variable build_embed : listing -> value -> value -> nat -> result embed.
Variable brand_aliases : alias_index.

Local Abbreviation process :=
  (process_item http get_channel channel_send build_embed brand_aliases).
Local Abbreviation tick :=
  (check_vinted http get_channel channel_send build_embed brand_aliases).
Local Abbreviation polling :=
  (run http get_channel channel_send build_embed brand_aliases).

Lemma gets_app a b : gets (a ++ b) = (gets a + gets b)%nat.
Proof. unfold gets. now rewrite filter_app, length_app. Qed.

Lemma updaters_app j a b :
  updaters j (a ++ b) = (updaters j a + updaters j b)%nat.
Proof. unfold updaters. now rewrite filter_app, length_app. Qed.

Lemma deliveries_app j a b :
  deliveries j (a ++ b) = (deliveries j a + deliveries j b)%nat.
Proof. unfold deliveries. now rewrite filter_app, length_app. Qed.

Lemma http_only j evs :
  forallb is_http evs = true ->
  updaters j evs = 0%nat /\ deliveries j evs = 0%nat.
Proof.
  unfold updaters, deliveries.
  induction evs as [|e evs IH]; simpl; [auto|].
  intros H. apply andb_true_iff in H as [He H].
  destruct e; simpl in *; try discriminate; auto.
Qed.

(** The events of [send_item_to_discord]: the description fetch, then
    nothing more, or a refused send, or a delivered send followed by the
    start of the live update. *)
Lemma send_item_to_discord_shape channel item user_feedback s :
  exists evs tail,
    send_item_to_discord http channel_send build_embed
      channel item user_feedback s = (Ok tt, extend s (evs ++ tail))
    /\ forallb is_http evs = true
    /\ (gets evs <= 3)%nat
    /\ (tail = []
        \/ tail = [EvSend channel (id item) false]
        \/ tail = [EvSend channel (id item) true; EvUpdater (id item)]).
Proof.
  unfold send_item_to_discord, try_except, fetch_item_description.
  destruct (retry_outcome http (GetProductByID (id item))
              (fun item_data => get item_data (u "description") VNone)
              range3) with (s := s) as (res & evs & E & Hq & Hg & Hres).
  { intros body. destruct body; simpl; eauto. }
  unfold mbind at 1. rewrite E.
  destruct Hres as [[data ->] | ->].
  - unfold mbind at 1.
    destruct (build_embed item user_feedback
                (shown_description data (description item))
                (List.length (trace (extend s evs)))) as [e|exc].
    + unfold mbind, send.
      destruct (channel_send (List.length (trace (extend s evs))) channel e).
      * exists evs, [EvSend channel (id item) true; EvUpdater (id item)].
        rewrite !emit_extend, !extend_extend. simpl app. auto 6.
      * exists evs, [EvSend channel (id item) false].
        unfold ret. rewrite !emit_extend, !extend_extend. auto 6.
    + exists evs, []. unfold ret. rewrite app_nil_r. auto 6.
  - exists evs, []. unfold ret. rewrite app_nil_r. auto 6.
Qed.

Lemma process_item_shape item s :
  exists s',
    process item s = (Ok tt, s')
    /\ (s' = s
        \/ (~ In (id item) (sent_items s)
            /\ exists evs,
                s' = {| sent_items := sent_items s ++ [id item];
                        trace := trace s ++ evs |}
                /\ (gets evs <= 6)%nat
                /\ forall j, updaters j evs = deliveries j evs)).
Proof.
  unfold process_item.
  destruct (_is_child_size (size_title item)); [exists s; auto|].
  destruct (_find_matching_brand brand_aliases _) as [brand_match|];
    [|exists s; auto].
  destruct (user_id item) as [user|]; [|exists s; auto].
  destruct (existsb (Z.eqb (id item)) (sent_items s)) eqn:Hsent;
    [exists s; auto|].
  destruct (get_channel _ _); simpl negb; cbv iota; [|exists s; auto].
  destruct (fetch_user_feedback_cost http user s)
    as (user_feedback & rest1 & E1 & Hg1 & Hq1 & _).
  unfold mbind at 1. rewrite E1.
  destruct (send_item_to_discord_shape (channel_id brand_match) item
              user_feedback
              (extend s (EvGet (GetUserByID user) :: rest1)))
    as (evs2 & tail & E2 & Hq2 & Hg2 & Htail).
  unfold try_except, mbind. rewrite E2. unfold append_sent.
  eexists. split; [reflexivity|]. right.
  split; [now apply (not_sent_yet _ _ Hsent)|].
  exists ((EvGet (GetUserByID user) :: rest1) ++ evs2 ++ tail).
  simpl trace. simpl sent_items. rewrite <- !app_assoc.
  split; [reflexivity|].
  assert (Hq1' : forallb is_http (EvGet (GetUserByID user) :: rest1) = true)
    by exact Hq1.
  split.
  - rewrite !gets_app.
    assert (gets tail = 0%nat)
      by (destruct Htail as [-> | [-> | ->]]; reflexivity).
    lia.
  - intros j. rewrite !updaters_app, !deliveries_app.
    destruct (http_only j _ Hq1') as [-> ->].
    destruct (http_only j _ Hq2) as [-> ->].
    destruct Htail as [-> | [-> | ->]]; try reflexivity.
    unfold updaters, deliveries. simpl.
    destruct (id item =? j); reflexivity.
Qed.

(** X23.  [send_item_to_discord] always returns normally.  It makes the
    description fetch, of at most 3 requests, and then does nothing more
    (the fetch or the rendering raised), or has one send refused, or has one
    send delivered and starts the live update for the item. *)
Theorem send_item_to_discord_outcomes channel item user_feedback s :
  exists evs tail,
    send_item_to_discord http channel_send build_embed
      channel item user_feedback s = (Ok tt, extend s (evs ++ tail))
    /\ forallb is_http evs = true
    /\ (gets evs <= 3)%nat
    /\ (tail = []
        \/ tail = [EvSend channel (id item) false]
        \/ tail = [EvSend channel (id item) true; EvUpdater (id item)])
    /\ (sends (id item) (evs ++ tail) <= 1)%nat
    /\ updaters (id item) (evs ++ tail) = deliveries (id item) (evs ++ tail).
Proof.
  destruct (send_item_to_discord_shape channel item user_feedback s)
    as (evs & tail & E & Hq & Hg & Htail).
  exists evs, tail.
  split; [exact E|]. split; [exact Hq|]. split; [exact Hg|].
  split; [exact Htail|].
  rewrite (sends_app (id item)), (sends_http (id item) _ Hq),
    updaters_app, deliveries_app.
  destruct (http_only (id item) _ Hq) as [-> ->].
  destruct Htail as [-> | [-> | ->]]; unfold sends, updaters, deliveries;
    simpl; rewrite ?Z.eqb_refl; simpl; split; lia.
Qed.

(** X15.  The listings a tick passes over: a child size, a brand with no
    route, a missing owner id, and a route whose channel is not found.  In
    each case nothing is requested or sent and the listing is not marked as
    sent, so a listing whose channel was missing is looked at again at the
    next tick. *)
Theorem process_item_passes_over item s :
  (_is_child_size (size_title item) = true -> process item s = (Ok tt, s))
  /\ (_find_matching_brand brand_aliases
        (match brand_title item return list N with
         | [] => []
         | _ :: _ => lower (brand_title item)
         end) = None ->
      process item s = (Ok tt, s))
  /\ (user_id item = None -> process item s = (Ok tt, s))
  /\ (forall brand_match,
        _find_matching_brand brand_aliases
          (match brand_title item return list N with
           | [] => []
           | _ :: _ => lower (brand_title item)
           end) = Some brand_match ->
        get_channel (List.length (trace s)) (channel_id brand_match) = false ->
        process item s = (Ok tt, s)).
Proof.
  unfold process_item. cbv zeta. split; [|split; [|split]].
  - now intros ->.
  - intros ->. now destruct (_is_child_size (size_title item)).
  - intros ->. destruct (_is_child_size (size_title item)); [reflexivity|].
    now destruct (_find_matching_brand brand_aliases _).
  - intros brand_match -> Hc.
    destruct (_is_child_size (size_title item)); [reflexivity|].
    destruct (user_id item); [|reflexivity].
    destruct (existsb (Z.eqb (id item)) (sent_items s)); [reflexivity|].
    now rewrite Hc.
Qed.

(** X16.  A listing that passes the four filters and is not in the sent
    list is always marked as sent by the tick that looks at it, and the
    first thing done for it is the feedback request for its owner. *)
Theorem process_item_marks_eligible item s brand_match user :
  _is_child_size (size_title item) = false ->
  _find_matching_brand brand_aliases
    (match brand_title item return list N with
     | [] => []
     | _ :: _ => lower (brand_title item)
     end) = Some brand_match ->
  user_id item = Some user ->
  ~ In (id item) (sent_items s) ->
  get_channel (List.length (trace s)) (channel_id brand_match) = true ->
  exists evs,
    process item s
    = (Ok tt, {| sent_items := sent_items s ++ [id item];
                 trace := trace s ++ EvGet (GetUserByID user) :: evs |}).
Proof.
  intros Hsize Hbrand Huser Hnew Hchan. unfold process_item. cbv zeta.
  rewrite Hsize, Hbrand, Huser.
  destruct (existsb (Z.eqb (id item)) (sent_items s)) eqn:Hsent.
  { apply existsb_exists in Hsent as (x & Hin & Hx).
    apply Z.eqb_eq in Hx. subst x. contradiction. }
  rewrite Hchan. simpl negb. cbv iota.
  destruct (fetch_user_feedback_cost http user s)
    as (user_feedback & rest1 & E1 & _).
  unfold mbind at 1. rewrite E1.
  destruct (send_item_to_discord_shape (channel_id brand_match) item
              user_feedback
              (extend s (EvGet (GetUserByID user) :: rest1)))
    as (evs2 & tail & E2 & _).
  unfold try_except, mbind. rewrite E2. unfold append_sent.
  exists (rest1 ++ evs2 ++ tail). simpl. now rewrite <- app_assoc.
Qed.

Lemma process_item_grows item s :
  exists new evs,
    snd (process item s)
    = {| sent_items := sent_items s ++ new; trace := trace s ++ evs |}
    /\ (NoDup (sent_items s) -> NoDup (sent_items s ++ new))
    /\ (gets evs <= 6)%nat
    /\ forall j, updaters j evs = deliveries j evs.
Proof.
  destruct (process_item_shape item s)
    as (s' & E & [-> | (Hnew & evs & -> & Hg & Hu)]); rewrite E; simpl.
  - exists [], []. rewrite !app_nil_r. destruct s. simpl.
    repeat split; auto. unfold gets. simpl. lia.
  - exists [id item], evs. repeat split; auto.
    intros Hnd. apply NoDup_app; [exact Hnd | repeat constructor; auto |].
    intros x Hx [<- | []]. contradiction.
Qed.

(** X17.  A run of the polling loop never ends with an exception, only
    ever appends to the sent list and to the trace, and never puts an id
    into the sent list twice. *)
Theorem polling_append_only ticks s :
  let after :=
    snd (run http get_channel channel_send build_embed brand_aliases ticks s) in
  fst (run http get_channel channel_send build_embed brand_aliases ticks s)
  = Ok tt
  /\ (exists new evs,
        sent_items after = sent_items s ++ new
        /\ trace after = trace s ++ evs)
  /\ (NoDup (sent_items s) -> NoDup (sent_items after)).
Proof.
  intros after. subst after. split; [|split].
  - apply (polling_invariant http get_channel embed channel_send build_embed
             brand_aliases (fun _ => True)); auto.
  - apply (polling_invariant http get_channel embed channel_send build_embed
             brand_aliases
             (fun s' => exists new evs,
                  sent_items s' = sent_items s ++ new
                  /\ trace s' = trace s ++ evs)).
    + intros item s' (new & evs & Hs & Ht).
      destruct (process_item_grows item s') as (new' & evs' & -> & _).
      exists (new ++ new'), (evs ++ evs'). simpl.
      rewrite Hs, Ht, <- !app_assoc. auto.
    + exists [], []. now rewrite !app_nil_r.
  - intros Hnd.
    apply (polling_invariant http get_channel embed channel_send build_embed
             brand_aliases (fun s' => NoDup (sent_items s'))); [|exact Hnd].
    intros item s' Hs'.
    destruct (process_item_grows item s') as (new' & evs' & -> & H & _).
    simpl. auto.
Qed.

(** X18.  Over a whole run from the start, the live-update tasks started
    for an id are as many as the notifications delivered for it: a task is
    started for every delivered notification and for nothing else. *)
Theorem updater_per_delivery ticks item_id :
  updaters item_id (trace (snd (polling ticks initial)))
  = deliveries item_id (trace (snd (polling ticks initial)))
  /\ (updaters item_id (trace (snd (polling ticks initial))) <= 1)%nat.
Proof.
  assert (H : forall j,
             updaters j (trace (snd (polling ticks initial)))
             = deliveries j (trace (snd (polling ticks initial)))).
  { apply (polling_invariant http get_channel embed channel_send build_embed
             brand_aliases
             (fun s' => forall j,
                  updaters j (trace s') = deliveries j (trace s'))).
    - intros item s' Hs' j.
      destruct (process_item_grows item s') as (new' & evs' & -> & _ & _ & Hu).
      simpl. now rewrite updaters_app, deliveries_app, Hs', Hu.
    - reflexivity. }
  split; [apply H|]. rewrite H.
  assert (Hm : marked (snd (polling ticks initial))).
  { apply (polling_invariant http get_channel embed channel_send build_embed
             brand_aliases marked).
    - intros item s'. apply process_item_keeps_marked.
    - intros i. now left. }
  pose proof (deliveries_le_sends item_id
                (trace (snd (polling ticks initial)))).
  destruct (Hm item_id) as [E | [E _]]; lia.
Qed.

(** X19.  A tick makes at most 6 requests per listing it is given, 3 for
    the feedback and 3 for the description, and none when the search
    failed. *)
Theorem tick_request_budget items s :
  (exists evs,
      trace (snd (tick (Some items) s)) = trace s ++ evs
      /\ (gets evs <= 6 * List.length items)%nat)
  /\ tick None s = (Ok tt, s).
Proof.
  split; [|reflexivity].
  cbn [check_vinted]. revert s.
  induction items as [|item items IH]; intros s.
  - exists []. simpl. rewrite app_nil_r. split; [reflexivity|].
    unfold gets. simpl. lia.
  - cbn [for_each]. unfold mbind.
    destruct (process_item_shape item s) as (s' & E & _).
    destruct (process_item_grows item s) as (new & evs & Es & _ & Hg & _).
    rewrite E in *. simpl in Es.
    destruct (IH s') as (evs' & Et & Hg').
    exists (evs ++ evs'). rewrite Et, Es. simpl.
    rewrite app_assoc. split; [reflexivity|].
    rewrite gets_app. simpl List.length. lia.
Qed.

End OrchestratorExtras.

(** ** The live update *)

Section UpdaterFacts.
Import main.

Variable clock : nat -> datetime.
Variable edit : nat -> edit_outcome.
Variable created_at : datetime.

Local Abbreviation written_at round :=
  {| field_name := time_uploaded;
     field_value := time_ago (clock round) created_at;
     field_inline := true |}.

Lemma tolerated_step rounds round f rest :
  tolerated (edit round) = true ->
  update_time_difference clock edit created_at (S rounds) round (f :: rest)
  = submitted (time_ago (clock round) created_at)
      (update_time_difference clock edit created_at rounds (S round)
         (written_at round :: rest)).
Proof.
  intros H. cbn [update_time_difference set_field_at_0].
  destruct (edit round) as [| | code |]; try discriminate; [reflexivity|].
  simpl in H. apply negb_true_iff, orb_false_iff in H as [-> ->]. reflexivity.
Qed.

Lemma terminal_step rounds round f rest :
  terminal (edit round) = true ->
  update_time_difference clock edit created_at (S rounds) round (f :: rest)
  = {| edits := [time_ago (clock round) created_at];
       fields := written_at round :: rest;
       state := Stopped |}.
Proof.
  intros H. cbn [update_time_difference set_field_at_0].
  destruct (edit round) as [| | code |]; try discriminate; [reflexivity|].
  simpl in H. apply orb_true_iff in H as [-> | H]; [reflexivity|].
  rewrite H. now destruct (code =? 50001).
Qed.

Lemma updater_prefix (k rounds round : nat) f rest (tail : updater) :
  (forall i, (i < k)%nat -> tolerated (edit (round + i)) = true) ->
  (k < rounds)%nat ->
  update_time_difference clock edit created_at (rounds - k) (round + k)
    (match k with O => f | S j => written_at (round + j) end :: rest) = tail ->
  update_time_difference clock edit created_at rounds round (f :: rest)
  = {| edits := map (fun i => time_ago (clock i) created_at) (seq round k)
                  ++ edits tail;
       fields := fields tail;
       state := state tail |}.
Proof.
  revert rounds round f. induction k as [|k IH]; intros rounds round f Htol Hk Ht.
  - rewrite Nat.sub_0_r, Nat.add_0_r in Ht. rewrite Ht. now destruct tail.
  - destruct rounds as [|rounds]; [lia|].
    rewrite tolerated_step
      by (specialize (Htol 0%nat ltac:(lia)); now rewrite Nat.add_0_r in Htol).
    rewrite (IH rounds (S round) (written_at round)).
    + reflexivity.
    + intros i Hi. specialize (Htol (S i) ltac:(lia)).
      now replace (S round + i)%nat with (round + S i)%nat by lia.
    + lia.
    + replace (S round + k)%nat with (round + S k)%nat by lia.
      cbn [Nat.sub] in Ht. rewrite <- Ht. f_equal. f_equal.
      destruct k as [|j]; [now rewrite Nat.add_0_r|].
      now replace (S round + j)%nat with (round + S j)%nat by lia.
Qed.

Lemma edits_upto (k : nat) :
  map (fun i => time_ago (clock i) created_at) (seq 0 k)
    ++ [time_ago (clock k) created_at]
  = map (fun i => time_ago (clock i) created_at) (seq 0 (S k)).
Proof. now rewrite seq_S, map_app. Qed.

(** X20.  The live update stops at the first edit that ends with
    [NotFound] or with an HTTP error of code 50001 or 50034: when the edits
    before round [k] succeeded or failed with another HTTP error, the task
    has submitted the relative time of each round up to [k], leaves the
    loop, and makes no further edit however many rounds are allowed. *)
Theorem updater_stops_at_first_terminal (rounds k : nat) f rest :
  (k < rounds)%nat ->
  (forall i, (i < k)%nat -> tolerated (edit i) = true) ->
  terminal (edit k) = true ->
  update_time_difference clock edit created_at rounds 0 (f :: rest)
  = {| edits := map (fun i => time_ago (clock i) created_at) (seq 0 (S k));
       fields := written_at k :: rest;
       state := Stopped |}.
Proof.
  intros Hk Htol Hterm.
  rewrite (updater_prefix k rounds 0 f rest
             {| edits := [time_ago (clock k) created_at];
                fields := written_at k :: rest;
                state := Stopped |}); auto.
  - cbn [edits fields state]. now rewrite edits_upto.
  - destruct (rounds - k)%nat as [|m] eqn:E; [lia|].
    cbn [Nat.add]. now apply terminal_step.
Qed.

(** X21.  Edits that succeed or fail with any other HTTP error never stop
    the live update: after [rounds] such rounds the task has submitted the
    relative time of every round, the first field of the embed holds the
    last one under the name of line 311, the other fields are as they
    were, and the task is in its next sleep. *)
Theorem updater_keeps_running (rounds : nat) f rest :
  (forall i, (i < rounds)%nat -> tolerated (edit i) = true) ->
  update_time_difference clock edit created_at rounds 0 (f :: rest)
  = {| edits := map (fun i => time_ago (clock i) created_at) (seq 0 rounds);
       fields := match rounds with
                 | O => f
                 | S j => written_at j
                 end :: rest;
       state := Sleeping |}.
Proof.
  intros Htol. destruct rounds as [|j]; [reflexivity|].
  rewrite (updater_prefix j (S j) 0 f rest
             {| edits := [time_ago (clock j) created_at];
                fields := written_at j :: rest;
                state := Sleeping |}); auto.
  - cbn [edits fields state]. now rewrite edits_upto.
  - replace (S j - j)%nat with 1%nat by lia. cbn [Nat.add].
    rewrite tolerated_step by (apply Htol; lia). reflexivity.
Qed.

(** X22.  What ends the live update with an exception: an embed without
    fields, at the first round and before any edit; and an edit that fails
    with an exception that is no [HTTPException], after the value of that
    round was submitted. *)
Theorem updater_fails (rounds k : nat) f rest :
  update_time_difference clock edit created_at (S rounds) 0 []
  = {| edits := []; fields := []; state := Failed |}
  /\ ((k < rounds)%nat ->
      (forall i, (i < k)%nat -> tolerated (edit i) = true) ->
      edit k = OtherFailure ->
      update_time_difference clock edit created_at rounds 0 (f :: rest)
      = {| edits := map (fun i => time_ago (clock i) created_at) (seq 0 (S k));
           fields := written_at k :: rest;
           state := Failed |}).
Proof.
  split; [reflexivity|].
  intros Hk Htol Hfail.
  rewrite (updater_prefix k rounds 0 f rest
             {| edits := [time_ago (clock k) created_at];
                fields := written_at k :: rest;
                state := Failed |}); auto.
  - cbn [edits fields state]. now rewrite edits_upto.
  - destruct (rounds - k)%nat as [|m] eqn:E; [lia|].
    cbn [Nat.add update_time_difference set_field_at_0].
    destruct k as [|j]; now rewrite Hfail.
Qed.

End UpdaterFacts.

(** *** The orchestrator and the live update on sample runs *)

Lemma process_item_passes_over_witness :
  let item :=
    {| main.id := 43; main.title := u "Puffer jacket";
       main.brand_title := u "Palace"; main.size_title := u "Kids L";
       main.user_id := Some 7; main.description := VStr (u "As new");
       main.raw_data := [] |} in
  main.process_item (rt := Sample.runtime)
    (fun _ _ => main.Response 200 (VDict [])) (fun _ _ => true)
    (fun _ _ (_ : unit) => true) (fun _ _ _ _ => Ok tt)
    (main._create_alias_mapping (rt := Sample.runtime)
       [ (u "Palace",
          {| main.config_channel_id := 1;
             main.config_aliases := [u "Palace"] |}) ])
    item main.initial
  = (Ok tt, main.initial).
Proof.
  intros item.
  refine (proj1 (process_item_passes_over (rt := Sample.runtime)
                   _ _ unit _ _ _ item main.initial) _).
  reflexivity.
Defined.

Lemma process_item_marks_eligible_witness :
  let item :=
    {| main.id := 42; main.title := u "Tri-Ferg tee";
       main.brand_title := u "Palace"; main.size_title := u "M";
       main.user_id := Some 7; main.description := VStr (u "Worn twice");
       main.raw_data := [] |} in
  exists evs,
    main.process_item (rt := Sample.runtime)
      (fun _ _ => main.TransportFailure) (fun _ _ => true)
      (fun _ _ (_ : unit) => false) (fun _ _ _ _ => Ok tt)
      (main._create_alias_mapping (rt := Sample.runtime)
         [ (u "Palace",
            {| main.config_channel_id := 1;
               main.config_aliases := [u "Palace"] |}) ])
      item main.initial
    = (Ok tt,
       {| main.sent_items := [42];
          main.trace := main.EvGet (main.GetUserByID 7) :: evs |}).
Proof.
  intros item.
  apply (process_item_marks_eligible (rt := Sample.runtime)
           (fun _ _ => main.TransportFailure) (fun _ _ => true) unit
           (fun _ _ _ => false) (fun _ _ _ _ => Ok tt)
           (main._create_alias_mapping (rt := Sample.runtime)
              [ (u "Palace",
                 {| main.config_channel_id := 1;
                    main.config_aliases := [u "Palace"] |}) ])
           item main.initial
           {| main.main_brand := u "Palace"; main.channel_id := 1 |} 7);
    try reflexivity.
  intros [].
Defined.

Lemma polling_append_only_witness :
  let item :=
    {| main.id := 42; main.title := u "Tri-Ferg tee";
       main.brand_title := u "Palace"; main.size_title := u "M";
       main.user_id := Some 7; main.description := VStr (u "Worn twice");
       main.raw_data := [] |} in
  NoDup
    (main.sent_items
       (snd (main.run (rt := Sample.runtime)
               (fun _ _ => main.Response 200 (VDict [])) (fun _ _ => true)
               (fun _ _ (_ : unit) => true) (fun _ _ _ _ => Ok tt)
               (main._create_alias_mapping (rt := Sample.runtime)
                  [ (u "Palace",
                     {| main.config_channel_id := 1;
                        main.config_aliases := [u "Palace"] |}) ])
               [Some [item; item]; None; Some [item]] main.initial))).
Proof.
  intros item.
  refine (proj2 (proj2 (polling_append_only (rt := Sample.runtime)
                          _ _ unit _ _ _ _ main.initial)) _).
  constructor.
Defined.

Lemma updater_stops_at_first_terminal_witness :
  main.update_time_difference
    (fun round => 1800000000000000 + 60000000 * Z.of_nat (S round))
    (fun round => if (round =? 2)%nat then main.NotFound else main.Edited)
    1800000000000000 10 0
    [ {| main.field_name := main.time_uploaded;
         main.field_value := u "5 seconds ago";
         main.field_inline := true |};
      {| main.field_name := u "Brand"; main.field_value := u "Palace";
         main.field_inline := true |} ]
  = {| main.edits := [u "1 minute ago"; u "2 minutes ago"; u "3 minutes ago"];
       main.fields :=
         [ {| main.field_name := main.time_uploaded;
              main.field_value := u "3 minutes ago";
              main.field_inline := true |};
           {| main.field_name := u "Brand"; main.field_value := u "Palace";
              main.field_inline := true |} ];
       main.state := main.Stopped |}.
Proof.
  refine (updater_stops_at_first_terminal _ _ _ 10 2 _ _ _ _ _).
  - lia.
  - intros [|[|i]] Hi; [reflexivity | reflexivity | lia].
  - reflexivity.
Defined.

Lemma updater_keeps_running_witness :
  main.state
    (main.update_time_difference
       (fun round => 1800000000000000 + 60000000 * Z.of_nat (S round))
       (fun _ => main.HTTPException 50035)
       1800000000000000 2 0
       [ {| main.field_name := main.time_uploaded;
            main.field_value := u "5 seconds ago";
            main.field_inline := true |} ])
  = main.Sleeping.
Proof.
  refine (f_equal main.state (updater_keeps_running _ _ _ 2 _ _ _)).
  intros i _. reflexivity.
Defined.

Lemma updater_fails_witness :
  main.state
    (main.update_time_difference
       (fun round => 1800000000000000 + 60000000 * Z.of_nat (S round))
       (fun _ => main.OtherFailure)
       1800000000000000 5 0
       [ {| main.field_name := main.time_uploaded;
            main.field_value := u "5 seconds ago";
            main.field_inline := true |} ])
  = main.Failed.
Proof.
  refine (f_equal main.state
            (proj2 (updater_fails _ _ _ 5 0 _ _) _ _ eq_refl)).
  - lia.
  - intros i Hi. lia.
Defined.
